(** * zstreams: the readable mixin ([lib/mixins/_readable.js])

    A shallow embedding of the mixin that every ZReadable stream carries:
    the connection primitive ([pipe], [unpipe], [tee]), the fanout accessor,
    the object-mode accessor and the convenience constructors built on
    [pipe].  Objects live in a store indexed by reference, so that aliasing
    (a stream piped into itself, a chain object shared by two streams) is
    part of the model. *)

From Stdlib Require Import ZArith NArith Ascii String DecimalString.
From Stdlib Require Import Decimal DecimalN.
From stdpp Require Import gmap strings list.

Local Open Scope string_scope.
Local Open Scope list_scope.

(** ** ECMAScript values *)

(** A number is NaN, an infinity or [(-1)^negative * mantissa * 2^exponent];
    both zeros are finite numbers of mantissa 0. *)
Inductive JSNumber :=
| NaN
| Infinity (negative : bool)
| Finite (negative : bool) (mantissa : N) (exponent : Z).

(** The values that reach the mixin as plain arguments.  Regular expressions
    and error objects are the two kinds of object it builds or catches
    itself; a string is a sequence of code units below 256. *)
Inductive JSValue :=
| VUndefined
| VNull
| VBool (b : bool)
| VNum (n : JSNumber)
| VStr (s : string)
| VRegExp (source : string)
| VError (name message : string).

Definition Integer (z : N) : JSNumber := Finite false z 0.

(** ToBoolean, the test behind [!!x], [x || y], [x && y] and [if (x)]. *)
Definition truthy (v : JSValue) : bool :=
  match v with
  | VUndefined | VNull => false
  | VBool b => b
  | VNum NaN => false
  | VNum (Infinity _) => true
  | VNum (Finite _ m _) => negb (m =? 0)%N
  | VStr s => negb (String.eqb s "")
  | VRegExp _ | VError _ _ => true
  end.

(** [x || y] *)
Definition js_or (x y : JSValue) : JSValue := if truthy x then x else y.

(** [x === undefined] and [x === null] *)
Definition is_undefined (v : JSValue) : bool :=
  match v with VUndefined => true | _ => false end.

Definition is_null (v : JSValue) : bool :=
  match v with VNull => true | _ => false end.

(** [isNaN] on a value that is already a number. *)
Definition isNaN (n : JSNumber) : bool :=
  match n with NaN => true | _ => false end.

Section Coercions.

(** Number-to-string conversion of a finite number that is not an integer
    of fewer than 22 digits is the platform's shortest round-trip
    printing; it is taken as given. *)
Variable DoubleToString : bool -> N -> Z -> string.

Definition NumberToString (n : JSNumber) : string :=
  match n with
  | NaN => "NaN"
  | Infinity false => "Infinity"
  | Infinity true => "-Infinity"
  | Finite neg m e =>
      if (m =? 0)%N then "0"
      else if (e =? 0)%Z && (m <? 10 ^ 21)%N then
        (if neg then "-" else "") +:+ NilZero.string_of_uint (N.to_uint m)
      else DoubleToString neg m e
  end.

Definition ToString (v : JSValue) : string :=
  match v with
  | VUndefined => "undefined"
  | VNull => "null"
  | VBool true => "true"
  | VBool false => "false"
  | VNum n => NumberToString n
  | VStr s => s
  | VRegExp source => "/" +:+ source +:+ "/"
  | VError name message =>
      if String.eqb message "" then name
      else if String.eqb name "" then message
      else name +:+ ": " +:+ message
  end.

(** *** [parseInt(string)] with no radix (ES5.1, 15.1.2.2) *)

Definition is_StrWhiteSpaceChar (c : ascii) : bool :=
  let n := N_of_ascii c in
  ((9 <=? n) && (n <=? 13) || (n =? 32) || (n =? 160))%N.

Fixpoint skip_whitespace (s : string) : string :=
  match s with
  | String c rest => if is_StrWhiteSpaceChar c then skip_whitespace rest else s
  | EmptyString => s
  end.

(** The value of [c] as a digit of radix [R], if it is one. *)
Definition digit_value (R : N) (c : ascii) : option N :=
  let n := N_of_ascii c in
  let d :=
    if ((48 <=? n) && (n <=? 57))%N then Some (n - 48)%N
    else if ((97 <=? n) && (n <=? 122))%N then Some (n - 87)%N
    else if ((65 <=? n) && (n <=? 90))%N then Some (n - 55)%N
    else None in
  match d with
  | Some k => if (k <? R)%N then Some k else None
  | None => None
  end.

(** The longest prefix of [s] made of radix-[R] digits. *)
Fixpoint digits_prefix (R : N) (s : string) : list N :=
  match s with
  | String c rest =>
      match digit_value R c with
      | Some d => d :: digits_prefix R rest
      | None => []
      end
  | EmptyString => []
  end.

Definition math_int (R : N) (ds : list N) : N :=
  fold_left (fun acc d => acc * R + d)%N ds 0%N.

(** The result is the exact integer, which is the platform's result up to
    2^53; its rounding to the nearest double, which sets in above 2^53, is
    not part of the model. *)
Definition parseInt_string (inputString : string) : JSNumber :=
  let str := skip_whitespace inputString in
  let '(sign, str) :=
    match str with
    | String "-" rest => (true, rest)
    | String "+" rest => (false, rest)
    | _ => (false, str)
    end in
  let '(R, str) :=
    match str with
    | String "0" (String c rest) =>
        if (Ascii.eqb c "x" || Ascii.eqb c "X")%bool then (16%N, rest) else (10%N, str)
    | _ => (10%N, str)
    end in
  match digits_prefix R str with
  | [] => NaN
  | ds => Finite sign (math_int R ds) 0
  end.

Definition parseInt (v : JSValue) : JSNumber := parseInt_string (ToString v).

End Coercions.

(** ** Caller-supplied functions

    A transform, a predicate or a completion callback is code of the caller:
    it runs on a state of its own, returns a value or raises one. *)

Inductive Outcome (A : Type) :=
| Returned (a : A)
| Thrown (ex : JSValue).
Arguments Returned {A} a.
Arguments Thrown {A} ex.


Definition Ref := positive.
Definition Listener := positive.
Definition ChainRef := positive.

Section Model.

Context {UserState : Type}.

Definition M (A : Type) : Type := UserState -> Outcome A * UserState.

Definition ret {A} (a : A) : M A := fun s => (Returned a, s).

Definition throw {A} (ex : JSValue) : M A := fun s => (Thrown ex, s).

Definition bind {A B} (c : M A) (k : A -> M B) : M B :=
  fun s =>
    match c s with
    | (Returned a, s') => k a s'
    | (Thrown ex, s') => (Thrown ex, s')
    end.

(** [try { c } catch (ex) { handler }] *)
Definition try_catch {A} (c : M A) (handler : JSValue -> M A) : M A :=
  fun s =>
    match c s with
    | (Returned a, s') => (Returned a, s')
    | (Thrown ex, s') => handler ex s'
    end.

Notation "'do' x <- c ; k" := (bind c (fun x => k))
  (at level 10, x name, c at level 100, k at level 200).

(** A completion callback, called as [cb(error)] or [cb(null, result)]. *)
Definition Callback : Type := list JSValue -> M JSValue.

(** An actual argument of a call: a plain value or a function. *)
Inductive Arg :=
| ArgValue (v : JSValue)
| ArgFunction (k : Callback).

(** A function that is handed a receiver and its [arguments]. *)
Definition JSFunction : Type := option Ref -> list Arg -> M JSValue.

(** [arguments[i]], [undefined] past the end. *)
Definition arg (i : nat) (args : list Arg) : Arg :=
  nth i args (ArgValue VUndefined).

(** [typeof a === 'function'] *)
Definition is_function (a : Arg) : bool :=
  match a with ArgFunction _ => true | ArgValue _ => false end.

(** The call [f(args)] of whatever [f] holds. *)
Definition call (f : Arg) (args : list JSValue) : M JSValue :=
  match f with
  | ArgFunction k => k args
  | ArgValue _ => throw (VError "TypeError" "not a function")
  end.

(** ** Stages and the object store *)

(** A stage object is kept as the call that constructed it: its class and
    the arguments it was given; what the stage then does with them is
    outside this file. *)
Inductive Stage :=
| ThroughStream (transform : JSFunction) (writableObjectMode readableObjectMode : JSValue)
| FilterStream (filterFunc : JSFunction) (objectMode : JSValue)
| SplitStream (delimiter : JSValue)
| BatchStream (batchSize : JSNumber)
| PluckStream (property : JSValue)
| IntersperseStream (seperator : JSValue) (objectMode : JSValue)
| FunctionWritableStream (func : JSFunction) (objectMode : JSValue)
| ArrayWritableStream (objectMode : JSValue)
| StringWritableStream (objectMode : JSValue)
| FileWriteStream (path : JSValue) (options : Arg).

(** The fields of a stream object that the mixin reads or writes. *)
Record Node := {
  isZStream : JSValue;
  zDownstreamStreams : list Ref;
  currentStreamChain : option ChainRef;
  readableState_objectMode : JSValue
}.

#[export] Instance Node_inhabited : Inhabited Node :=
  populate {| isZStream := VUndefined; zDownstreamStreams := [];
              currentStreamChain := None; readableState_objectMode := VUndefined |}.

(** The store.  A chain object is shared by the streams that point to it;
    of its content only the [dirty] flag is touched here.  [emitters]
    gives, per object, its listeners of the ['error'] event in order of
    registration. *)
Record World := {
  nodes : gmap Ref Node;
  chains : gmap ChainRef bool;
  emitters : gmap Ref (list Listener);
  stages : gmap Ref Stage;
  next_ref : Ref
}.

Record Options := { noConvert : JSValue; end_ : JSValue }.

(** ** Collaborators

    The platform's stream primitive, the adapter of foreign values and the
    stage classes are called, not defined, by the mixin.  The primitive
    knows nothing of the mixin's own fields: what it returns and what it
    does to the ['error'] listeners is all the mixin can see of it.  What
    the adapter writes on the stream it returns (the ZStream marker, a chain
    view) is not modelled: of the adapter the model keeps which stream it
    returns. *)
Class Host := {
  DoubleToString : bool -> N -> Z -> string;
  (** [conversion.convertToZStream(value)]: the conforming stream that
      stands for [value]; what the adapter sets up on that stream is part
      of the world the call starts from *)
  convertToZStream : Ref -> Ref;
  (** [this._zSuperObj.pipe.call(this, destination, options)] *)
  zSuperObj_pipe : Ref -> Ref -> option Options -> World -> Ref * gmap Ref (list Listener);
  (** [this._zSuperObj.unpipe.call(this, destination)] *)
  zSuperObj_unpipe : Ref -> option Ref -> World -> Ref * gmap Ref (list Listener);
  (** the fields and listeners a freshly constructed stage starts with *)
  construct : Stage -> Node * list Listener;
  (** [sink.intoCallback(cb)] *)
  intoCallback : Ref -> Arg -> World -> JSValue * gmap Ref (list Listener);
  (** [sink.getArray()] and [sink.getString()] *)
  getArray : Ref -> M JSValue;
  getString : Ref -> M JSValue
}.

Context `{Host}.

(** *** Store access *)

Definition set_nodes (f : gmap Ref Node -> gmap Ref Node) (w : World) : World :=
  {| nodes := f (nodes w); chains := chains w; emitters := emitters w;
     stages := stages w; next_ref := next_ref w |}.

Definition set_chains (f : gmap ChainRef bool -> gmap ChainRef bool) (w : World) : World :=
  {| nodes := nodes w; chains := f (chains w); emitters := emitters w;
     stages := stages w; next_ref := next_ref w |}.

Definition set_emitters (f : gmap Ref (list Listener) -> gmap Ref (list Listener))
    (w : World) : World :=
  {| nodes := nodes w; chains := chains w; emitters := f (emitters w);
     stages := stages w; next_ref := next_ref w |}.

Definition set_zDownstreamStreams (r : Ref) (ds : list Ref) (w : World) : World :=
  let n := nodes w !!! r in
  set_nodes (insert r {| isZStream := isZStream n; zDownstreamStreams := ds;
                         currentStreamChain := currentStreamChain n;
                         readableState_objectMode := readableState_objectMode n |}) w.

(** [chain.dirty = true] *)
Definition set_dirty (c : ChainRef) (w : World) : World :=
  set_chains (insert c true) w.

(** [if (r._currentStreamChain) r._currentStreamChain.dirty = true] *)
Definition mark_dirty (r : Ref) (w : World) : World :=
  match currentStreamChain (nodes w !!! r) with
  | Some c => set_dirty c w
  | None => w
  end.

Definition dirty (c : ChainRef) (w : World) : option bool := chains w !! c.

(** *** The event emitter, for the ['error'] event *)

(** [emitter.listeners('error')]: a copy of the list, in registration
    order. *)
Definition listeners (r : Ref) (w : World) : list Listener :=
  default [] (emitters w !! r).

Fixpoint remove_first (l : Listener) (ls : list Listener) : list Listener :=
  match ls with
  | [] => []
  | x :: rest => if decide (x = l) then rest else x :: remove_first l rest
  end.

(** [emitter.removeListener('error', l)]: the emitter scans its list from
    the end and drops the first match, that is the latest registration of
    [l]. *)
Definition removeListener (r : Ref) (l : Listener) (w : World) : World :=
  set_emitters (insert r (reverse (remove_first l (reverse (listeners r w))))) w.

(** ** The connection primitive *)

(** [_Readable.prototype.pipe] *)
Definition pipe (this destination : Ref) (options : option Options) (w : World)
    : Ref * World :=
  let destination :=
    if negb (truthy (isZStream (nodes w !!! destination)))
       && negb (match options with Some o => truthy (noConvert o) | None => false end)
    then convertToZStream destination
    else destination in
  let '(retVal, em) := zSuperObj_pipe this destination options w in
  let w := set_emitters (fun _ => em) w in
  let destinationErrorListeners := listeners destination w in
  let w :=
    match destinationErrorListeners with
    | l0 :: _ => removeListener destination l0 w
    | [] => w
    end in
  let w := set_zDownstreamStreams this (zDownstreamStreams (nodes w !!! this) ++ [destination]) w in
  let w := mark_dirty this w in
  let w := mark_dirty destination w in
  (retVal, w).

(** [_Readable.prototype.unpipe]; [None] is a missing (or falsy)
    argument. *)
Definition unpipe (this : Ref) (destination : option Ref) (w : World) : Ref * World :=
  let '(retVal, em) := zSuperObj_unpipe this destination w in
  let w := set_emitters (fun _ => em) w in
  let w :=
    match destination with
    | Some destination =>
        set_zDownstreamStreams this
          (filter (fun dest => dest ≠ destination) (zDownstreamStreams (nodes w !!! this))) w
    | None => set_zDownstreamStreams this [] w
    end in
  let w := mark_dirty this w in
  (retVal, w).

(** [_Readable.prototype.tee] *)
Definition tee (this destination : Ref) (options : option Options) (w : World)
    : Ref * World :=
  let '(_, w) := pipe this destination options w in
  (this, w).

(** [_Readable.prototype.getDownstreamStreams] *)
Definition getDownstreamStreams (this : Ref) (w : World) : list Ref :=
  zDownstreamStreams (nodes w !!! this).

(** [_Readable.prototype.isReadableObjectMode] *)
Definition isReadableObjectMode (this : Ref) (w : World) : bool :=
  truthy (readableState_objectMode (nodes w !!! this)).

(** The destination [pipe] works on: the argument itself when it is a
    ZStream or conversion is switched off, the adapter's stream
    otherwise. *)
Definition resolved (destination : Ref) (options : option Options) (w : World) : Ref :=
  if negb (truthy (isZStream (nodes w !!! destination)))
     && negb (match options with Some o => truthy (noConvert o) | None => false end)
  then convertToZStream destination
  else destination.

(** ** Convenience constructors *)

(** [new Class(arguments)]: the next free reference holds the new stage. *)
Definition new_ (s : Stage) (w : World) : Ref * World :=
  let r := next_ref w in
  let '(n, ls) := construct s in
  (r, {| nodes := <[r := n]> (nodes w); chains := chains w;
         emitters := <[r := ls]> (emitters w);
         stages := <[r := s]> (stages w); next_ref := Pos.succ r |}).

(** [_Readable.prototype.through] *)
Definition through (this : Ref) (transformFunc : JSFunction) (objectMode : JSValue)
    (w : World) : Ref * World :=
  let '(stage, w) :=
    new_ (ThroughStream
            (fun this_ args =>
               let chunk := arg 0 args in
               let cb := arg 2 args in
               do _ <- transformFunc this_ [chunk; cb]; ret VUndefined)
            (VBool (isReadableObjectMode this w))
            (if negb (is_undefined objectMode) then objectMode
             else VBool (isReadableObjectMode this w))) w in
  pipe this stage None w.

(** [_Readable.prototype.throughObj] *)
Definition throughObj (this : Ref) (transformFunc : JSFunction) : World -> Ref * World :=
  through this transformFunc (VBool true).

(** [_Readable.prototype.throughData] *)
Definition throughData (this : Ref) (transformFunc : JSFunction) : World -> Ref * World :=
  through this transformFunc (VBool false).

(** The function [throughSync] hands to [through]. *)
Definition throughSync_wrapper (transformFunc : JSFunction) : JSFunction :=
  fun this_ args =>
    let cb := if is_function (arg 1 args) then arg 1 args else arg 2 args in
    try_catch
      (do r <- transformFunc this_ (removelast args);
       do _ <- call cb [VNull; r];
       ret VUndefined)
      (fun ex => call cb [ex]).

(** [_Readable.prototype.throughSync] *)
Definition throughSync (this : Ref) (transformFunc : JSFunction) (objectMode : JSValue)
    : World -> Ref * World :=
  through this (throughSync_wrapper transformFunc) objectMode.

(** [_Readable.prototype.throughObjSync] *)
Definition throughObjSync (this : Ref) (transformFunc : JSFunction)
    : World -> Ref * World :=
  throughSync this transformFunc (VBool true).

(** [_Readable.prototype.throughDataSync] *)
Definition throughDataSync (this : Ref) (transformFunc : JSFunction)
    : World -> Ref * World :=
  throughSync this transformFunc (VBool false).

(** [_Readable.prototype.filter] *)
Definition filter (this : Ref) (filterFunc : JSFunction) (w : World) : Ref * World :=
  let '(stage, w) := new_ (FilterStream filterFunc (VBool true)) w in
  pipe this stage None w.

(** The function [filterSync] hands to [filter]. *)
Definition filterSync_wrapper (filterFunc : JSFunction) : JSFunction :=
  fun _ args =>
    let chunk := arg 0 args in
    let cb := arg 1 args in
    try_catch
      (do r <- filterFunc None [chunk];
       do _ <- call cb [VNull; r];
       ret VUndefined)
      (fun ex => do _ <- call cb [ex]; ret VUndefined).

(** [_Readable.prototype.filterSync] *)
Definition filterSync (this : Ref) (filterFunc : JSFunction) : World -> Ref * World :=
  filter this (filterSync_wrapper filterFunc).

(** [_Readable.prototype.split] *)
Definition split (this : Ref) (delimiter : JSValue) (w : World) : Ref * World :=
  let delimiter := js_or delimiter (VRegExp "\r?\n") in
  let '(stage, w) := new_ (SplitStream delimiter) w in
  pipe this stage None w.

(** [_Readable.prototype.batch], called with a value of [JSValue], whose
    conversion to a string cannot raise; [batch_call] below is the call on
    an argument of any kind. *)
Definition batch (this : Ref) (batchSize : JSValue) (w : World) : Ref * World :=
  let batchSize := parseInt DoubleToString batchSize in
  let batchSize := if isNaN batchSize then Integer 10 else batchSize in
  let '(stage, w) := new_ (BatchStream batchSize) w in
  pipe this stage None w.

(** [_Readable.prototype.pluck] *)
Definition pluck (this : Ref) (property : JSValue) (w : World) : Ref * World :=
  let property := js_or property (VStr "value") in
  let '(stage, w) := new_ (PluckStream property) w in
  pipe this stage None w.

Definition newline : string := String "010"%char "".

(** [_Readable.prototype.intersperse] *)
Definition intersperse (this : Ref) (seperator : JSValue) (w : World) : Ref * World :=
  let seperator :=
    if (is_null seperator || is_undefined seperator)%bool then VStr newline
    else seperator in
  let '(stage, w) :=
    new_ (IntersperseStream seperator (VBool (isReadableObjectMode this w))) w in
  pipe this stage None w.

(** [_Readable.prototype.each] *)
Definition each (this : Ref) (func : JSFunction) (w : World) : Ref * World :=
  let '(stage, w) :=
    new_ (FunctionWritableStream func (VBool (isReadableObjectMode this w))) w in
  pipe this stage None w.

(** [_Readable.prototype.intoArray]; the method returns nothing. *)
Definition intoArray (this : Ref) (cb : Callback) (w : World) : World :=
  let '(arrayWritableStream, w) :=
    new_ (ArrayWritableStream (VBool (isReadableObjectMode this w))) w in
  let '(sink, w) := pipe this arrayWritableStream None w in
  let '(_, em) :=
    intoCallback sink
      (ArgFunction (fun args =>
         let error := nth 0 args VUndefined in
         if truthy error then do _ <- cb [error]; ret VUndefined
         else do a <- getArray arrayWritableStream;
              do _ <- cb [VNull; a];
              ret VUndefined)) w in
  set_emitters (fun _ => em) w.

(** [_Readable.prototype.intoString]; the method returns nothing. *)
Definition intoString (this : Ref) (cb : Callback) (w : World) : World :=
  let '(stringWritableStream, w) :=
    new_ (StringWritableStream (VBool (isReadableObjectMode this w))) w in
  let '(sink, w) := pipe this stringWritableStream None w in
  let '(_, em) :=
    intoCallback sink
      (ArgFunction (fun args =>
         let error := nth 0 args VUndefined in
         if truthy error then do _ <- cb [error]; ret VUndefined
         else do a <- getString stringWritableStream;
              do _ <- cb [VNull; a];
              ret VUndefined)) w in
  set_emitters (fun _ => em) w.

(** [_Readable.prototype.intoFile] *)
Definition intoFile (this : Ref) (path : JSValue) (options cb : Arg) (w : World)
    : JSValue * World :=
  let '(options, cb) :=
    if is_function options then (ArgValue VNull, options) else (options, cb) in
  let '(file, w) := new_ (FileWriteStream path options) w in
  let '(sink, w) := pipe this file None w in
  let '(r, em) := intoCallback sink cb w in
  (r, set_emitters (fun _ => em) w).

(** *** What a stage was configured with *)

(** The object-mode option of the consuming side, when the constructor was
    given one. *)
Definition consumption_mode (s : Stage) : option JSValue :=
  match s with
  | ThroughStream _ writableObjectMode _ => Some writableObjectMode
  | FilterStream _ objectMode
  | IntersperseStream _ objectMode
  | FunctionWritableStream _ objectMode
  | ArrayWritableStream objectMode
  | StringWritableStream objectMode => Some objectMode
  | SplitStream _ | BatchStream _ | PluckStream _ | FileWriteStream _ _ => None
  end.

(** The object-mode option of the producing side, when the constructor was
    given one. *)
Definition production_mode (s : Stage) : option JSValue :=
  match s with
  | ThroughStream _ _ readableObjectMode => Some readableObjectMode
  | FilterStream _ objectMode
  | IntersperseStream _ objectMode
  | FunctionWritableStream _ objectMode
  | ArrayWritableStream objectMode
  | StringWritableStream objectMode => Some objectMode
  | SplitStream _ | BatchStream _ | PluckStream _ | FileWriteStream _ _ => None
  end.

(** The stage that a constructor, run in [w] with result world [w'], has
    built. *)
Definition created (w w' : World) : option Stage := stages w' !! next_ref w.

(** Its two object-mode options. *)
Definition created_modes (w w' : World) : option (option JSValue * option JSValue) :=
  (fun s => (consumption_mode s, production_mode s)) <$> created w w'.

(** A call statement [f(...);]: the value it returns is dropped. *)
Definition discarding (c : M JSValue) : M JSValue :=
  do _ <- c; ret VUndefined.

(** [function _Readable()], the constructor part of the mixin, run on the
    object under construction. *)
Definition _Readable (this : Ref) (w : World) : World :=
  set_zDownstreamStreams this [] w.

(** The function [intoArray] and [intoString] hand to [intoCallback]:
    [function(error) { if(error) cb(error) else cb(null, sink.getX()) }],
    with [result] the reading of the sink. *)
Definition sink_completion (cb : Callback) (result : M JSValue) : Callback :=
  fun args =>
    let error := nth 0 args VUndefined in
    if truthy error then do _ <- cb [error]; ret VUndefined
    else do a <- result;
         do _ <- cb [VNull; a];
         ret VUndefined.

(** What the comment in [unpipe] relies on: a destination's chain view that
    is not already dirty is the chain view of the stream itself. *)
Definition destinations_share_chain (this : Ref) (w : World) : Prop :=
  ∀ N c,
    N ∈ getDownstreamStreams this w →
    currentStreamChain (nodes w !!! N) = Some c →
    dirty c w = Some true ∨ currentStreamChain (nodes w !!! this) = Some c.



End Model.

(** ** Hosts and worlds to run the model on *)

(** A listener that occurs nowhere in [ls]: the closure a call creates. *)
Definition fresh_listener (ls : list Listener) : Listener :=
  Pos.succ (foldr Pos.max 1%positive ls).

(** The state of the caller's code in the examples: the calls its callback
    has received, latest first. *)
Definition CallLog : Type := list (list JSValue).

(** A host whose native [pipe] registers a new closure ahead of the
    listeners the destination already has, and returns the destination. *)
Definition prepending_host : @Host CallLog := {|
  DoubleToString := fun _ _ _ => "";
  convertToZStream := fun r => r;
  zSuperObj_pipe := fun _ destination _ w =>
    (destination,
     <[destination := fresh_listener (listeners destination w) :: listeners destination w]>
       (emitters w));
  zSuperObj_unpipe := fun this _ w => (this, emitters w);
  construct := fun s =>
    ({| isZStream := VBool true; zDownstreamStreams := [];
        currentStreamChain := None;
        readableState_objectMode := default VUndefined (production_mode s) |}, []);
  intoCallback := fun _ _ w => (VUndefined, emitters w);
  getArray := fun _ => ret VUndefined;
  getString := fun _ => ret VUndefined
|}.

(** The same host with a native [pipe] that registers its closure after the
    listeners already there, as a plain [on('error', ...)] does. *)
Definition appending_host : @Host CallLog := {|
  DoubleToString := fun _ _ _ => "";
  convertToZStream := fun r => r;
  zSuperObj_pipe := fun _ destination _ w =>
    (destination,
     <[destination :=
         listeners destination w ++ [fresh_listener (listeners destination w)]]>
       (emitters w));
  zSuperObj_unpipe := fun this _ w => (this, emitters w);
  construct := fun s =>
    ({| isZStream := VBool true; zDownstreamStreams := [];
        currentStreamChain := None;
        readableState_objectMode := default VUndefined (production_mode s) |}, []);
  intoCallback := fun _ _ w => (VUndefined, emitters w);
  getArray := fun _ => ret VUndefined;
  getString := fun _ => ret VUndefined
|}.

(** A host whose adapter wraps a foreign object into a new stream (the
    reference 100 places further) and whose native [pipe] registers no
    listener. *)
Definition wrapping_host : @Host CallLog := {|
  DoubleToString := fun _ _ _ => "";
  convertToZStream := fun r => (r + 100)%positive;
  zSuperObj_pipe := fun _ destination _ w => (destination, emitters w);
  zSuperObj_unpipe := fun this _ w => (this, emitters w);
  construct := fun s =>
    ({| isZStream := VBool true; zDownstreamStreams := [];
        currentStreamChain := None;
        readableState_objectMode := default VUndefined (production_mode s) |}, []);
  intoCallback := fun _ _ w => (VUndefined, emitters w);
  getArray := fun _ => ret VUndefined;
  getString := fun _ => ret VUndefined
|}.

(** A host on which the platform's file streams are not ZStreams, while the
    stage classes of the library are; its adapter converts a stream in place
    and returns the object it was given. *)
Definition file_host : @Host CallLog := {|
  DoubleToString := fun _ _ _ => "";
  convertToZStream := fun r => r;
  zSuperObj_pipe := fun _ destination _ w => (destination, emitters w);
  zSuperObj_unpipe := fun this _ w => (this, emitters w);
  construct := fun s =>
    ({| isZStream := match s with FileWriteStream _ _ => VUndefined | _ => VBool true end;
        zDownstreamStreams := [];
        currentStreamChain := None;
        readableState_objectMode := default VUndefined (production_mode s) |}, []);
  intoCallback := fun _ _ w => (VUndefined, emitters w);
  getArray := fun _ => ret VUndefined;
  getString := fun _ => ret VUndefined
|}.

(** A foreign object, not a ZStream, that [example_world] does not hold. *)
Definition foreign : Ref := 5%positive.

(** Stream 1, in data mode, is piped twice into stream 2; the chain view has
    been computed since: the two streams point to the one chain object, 10,
    which is clean; stream 2 carries an ['error'] listener of the caller,
    7. *)
Definition example_world : @World CallLog := {|
  nodes :=
    <[1%positive := {| isZStream := VBool true; zDownstreamStreams := [2%positive; 2%positive];
                       currentStreamChain := Some 10%positive;
                       readableState_objectMode := VUndefined |}]>
    (<[2%positive := {| isZStream := VBool true; zDownstreamStreams := [];
                        currentStreamChain := Some 10%positive;
                        readableState_objectMode := VBool true |}]> ∅);
  chains := <[10%positive := false]> ∅;
  emitters := <[2%positive := [7%positive]]> ∅;
  stages := ∅;
  next_ref := 3%positive
|}.

(** The objects of [example_world] by name. *)
Definition producer : Ref := 1%positive.
Definition consumer : Ref := 2%positive.
Definition shared_chain : ChainRef := 10%positive.
Definition callers_listener : Listener := 7%positive.
Definition default_listener : Listener := 8%positive.

(** A callback that records the call and returns. *)
Definition recording_callback : @Callback CallLog :=
  fun args log => (Returned VUndefined, args :: log).

(** A transform that raises on the number 2 and returns any other chunk as
    it is. *)
Definition raises_on_two : @JSFunction CallLog :=
  fun _ args log =>
    match args with
    | [ArgValue (VNum (Finite false 2 0))] => (Thrown (VError "Error" "two"), log)
    | [ArgValue v] => (Returned v, log)
    | _ => (Returned VUndefined, log)
    end.

(** ** The connection primitive: bookkeeping lemmas *)

Section Connection.

Context {UserState : Type} `{!@Host UserState}.
Implicit Types (w : @World UserState) (this destination r : Ref) (c : ChainRef).

Lemma nodes_set_emitters f w : nodes (set_emitters f w) = nodes w.
Proof. reflexivity. Qed.

Lemma nodes_mark_dirty r w : nodes (mark_dirty r w) = nodes w.
Proof. unfold mark_dirty. by destruct (currentStreamChain _). Qed.

Lemma emitters_mark_dirty r w : emitters (mark_dirty r w) = emitters w.
Proof. unfold mark_dirty. by destruct (currentStreamChain _). Qed.

Lemma stages_mark_dirty r w : stages (mark_dirty r w) = stages w.
Proof. unfold mark_dirty. by destruct (currentStreamChain _). Qed.


Lemma chains_mark_dirty r w :
  chains (mark_dirty r w) =
    match currentStreamChain (nodes w !!! r) with
    | Some c => <[c := true]> (chains w)
    | None => chains w
    end.
Proof. unfold mark_dirty. by destruct (currentStreamChain _). Qed.

Lemma chain_set_zDownstreamStreams r ds w r' :
  currentStreamChain (nodes (set_zDownstreamStreams r ds w) !!! r') =
  currentStreamChain (nodes w !!! r').
Proof.
  unfold set_zDownstreamStreams; simpl.
  destruct (decide (r = r')) as [->|Hne].
  - by rewrite lookup_total_insert_eq.
  - by rewrite lookup_total_insert_ne.
Qed.

Lemma isZStream_set_zDownstreamStreams r ds w r' :
  isZStream (nodes (set_zDownstreamStreams r ds w) !!! r') = isZStream (nodes w !!! r').
Proof.
  unfold set_zDownstreamStreams; simpl.
  destruct (decide (r = r')) as [->|Hne].
  - by rewrite lookup_total_insert_eq.
  - by rewrite lookup_total_insert_ne.
Qed.

Lemma fanout_set_zDownstreamStreams r ds w :
  getDownstreamStreams r (set_zDownstreamStreams r ds w) = ds.
Proof.
  unfold getDownstreamStreams, set_zDownstreamStreams; simpl.
  by rewrite lookup_total_insert_eq.
Qed.

(** The world [pipe] leaves, statement by statement. *)
Lemma pipe_steps this destination options w :
  pipe this destination options w =
    let C := resolved destination options w in
    let native := zSuperObj_pipe this C options w in
    let w1 := set_emitters (fun _ => native.2) w in
    let w2 :=
      match listeners C w1 with
      | l0 :: _ => removeListener C l0 w1
      | [] => w1
      end in
    let w3 := set_zDownstreamStreams this (getDownstreamStreams this w ++ [C]) w2 in
    (native.1, mark_dirty C (mark_dirty this w3)).
Proof.
  unfold pipe, resolved. cbv zeta.
  destruct (zSuperObj_pipe _ _ _ _) as [retVal em]. simpl.
  unfold getDownstreamStreams.
  by destruct (listeners _ _).
Qed.

Lemma pipe_nodes_unlistened this destination options w :
  let C := resolved destination options w in
  nodes (pipe this destination options w).2 =
    nodes (set_zDownstreamStreams this (getDownstreamStreams this w ++ [C]) w).
Proof.
  rewrite pipe_steps. cbv zeta. simpl.
  rewrite !nodes_mark_dirty.
  unfold set_zDownstreamStreams. simpl.
  by destruct (listeners _ _).
Qed.

Lemma pipe_stages this destination options w :
  stages (pipe this destination options w).2 = stages w.
Proof.
  rewrite pipe_steps. cbv zeta. simpl.
  rewrite !stages_mark_dirty. simpl.
  by destruct (listeners _ _).
Qed.

Lemma pipe_emitters this destination options w :
  let C := resolved destination options w in
  let em := (zSuperObj_pipe this C options w).2 in
  emitters (pipe this destination options w).2 =
    match default [] (em !! C) with
    | l0 :: rest => <[C := reverse (remove_first l0 (reverse (l0 :: rest)))]> em
    | [] => em
    end.
Proof.
  rewrite pipe_steps. cbv zeta. simpl.
  rewrite !emitters_mark_dirty. simpl.
  unfold listeners. simpl.
  destruct (default [] _) as [|l0 rest] eqn:E; simpl; [done|].
  unfold removeListener, listeners. simpl. by rewrite E.
Qed.

Lemma pipe_chains this destination options w :
  let C := resolved destination options w in
  chains (pipe this destination options w).2 =
    let marked :=
      match currentStreamChain (nodes w !!! this) with
      | Some c => <[c := true]> (chains w)
      | None => chains w
      end in
    match currentStreamChain (nodes w !!! C) with
    | Some c => <[c := true]> marked
    | None => marked
    end.
Proof.
  rewrite pipe_steps. cbv zeta. simpl.
  rewrite !chains_mark_dirty, nodes_mark_dirty, !chain_set_zDownstreamStreams.
  destruct (listeners _ _); reflexivity.
Qed.

Lemma resolved_pipe this destination options destination' w :
  resolved destination' options (pipe this destination options w).2 =
  resolved destination' options w.
Proof.
  unfold resolved. rewrite pipe_nodes_unlistened. cbv zeta.
  by rewrite isZStream_set_zDownstreamStreams.
Qed.

Lemma unpipe_steps this (target : option Ref) w :
  unpipe this target w =
    let native := zSuperObj_unpipe this target w in
    let w1 := set_emitters (fun _ => native.2) w in
    let kept :=
      match target with
      | Some C => base.filter (fun dest => dest ≠ C) (getDownstreamStreams this w)
      | None => []
      end in
    (native.1, mark_dirty this (set_zDownstreamStreams this kept w1)).
Proof.
  unfold unpipe. destruct (zSuperObj_unpipe _ _ _) as [retVal em]. simpl.
  by destruct target.
Qed.

Lemma unpipe_chains this (target : option Ref) w :
  chains (unpipe this target w).2 =
    match currentStreamChain (nodes w !!! this) with
    | Some c => <[c := true]> (chains w)
    | None => chains w
    end.
Proof.
  rewrite unpipe_steps. cbv zeta. simpl.
  by rewrite chains_mark_dirty, chain_set_zDownstreamStreams.
Qed.

End Connection.

(** ** The connection primitive: fanout, listeners, dirty flags *)

Section ConnectionProperties.

Context {UserState : Type} `{!@Host UserState}.
Implicit Types (w : @World UserState) (this destination r : Ref) (c : ChainRef).
Implicit Types (ls : list Listener) (l d : Listener).

Lemma remove_first_app_fresh l ls ls' :
  l ∉ ls → remove_first l (ls ++ ls') = ls ++ remove_first l ls'.
Proof.
  induction ls as [|x ls IH]; intros Hfresh; simpl; [done|].
  apply not_elem_of_cons in Hfresh as [Hne Hfresh].
  destruct (decide (x = l)) as [->|_]; [done|].
  by rewrite IH.
Qed.

(** Dropping the latest registration of a listener that was registered
    once, first, leaves the later ones as they were. *)
Lemma remove_latest_of_fresh_head l ls :
  l ∉ ls → reverse (remove_first l (reverse (l :: ls))) = ls.
Proof.
  intros Hfresh. rewrite reverse_cons.
  rewrite remove_first_app_fresh by (by rewrite elem_of_reverse).
  simpl. destruct (decide (l = l)); [|done].
  by rewrite app_nil_r, reverse_involutive.
Qed.

Lemma remove_first_length l ls :
  l ∈ ls → S (length (remove_first l ls)) = length ls.
Proof.
  induction ls as [|x ls IH]; intros Hin; simpl.
  - by apply elem_of_nil in Hin.
  - destruct (decide (x = l)) as [->|Hne]; [done|].
    apply elem_of_cons in Hin as [->|Hin]; [done|].
    simpl. by rewrite IH.
Qed.

(** Whatever the native [pipe] did, the mixin then drops one registration,
    of the listener that heads the destination's list, and nothing else. *)
Lemma pipe_drops_one_registration this destination options w l0 rest :
  let C := resolved destination options w in
  let em := (zSuperObj_pipe this C options w).2 in
  em !! C = Some (l0 :: rest) →
  let w' := (pipe this destination options w).2 in
  S (length (listeners C w')) = length (l0 :: rest)
  ∧ listeners C w' = reverse (remove_first l0 (reverse (l0 :: rest)))
  ∧ ∀ r, r ≠ C → listeners r w' = default [] (em !! r).
Proof.
  intros C em Hem w'. unfold w', listeners.
  rewrite pipe_emitters. fold C em. rewrite Hem.
  cbn -[reverse remove_first length]. rewrite lookup_insert_eq.
  cbn -[reverse remove_first length].
  split; [|split].
  - rewrite length_reverse, remove_first_length, length_reverse; [done|].
    rewrite elem_of_reverse. apply elem_of_cons. by left.
  - done.
  - intros r Hne. by rewrite lookup_insert_ne.
Qed.

Lemma count_occ_filter_ne (C x : Ref) (xs : list Ref) :
  x ≠ C →
  count_occ Pos.eq_dec (base.filter (fun dest => dest ≠ C) xs) x = count_occ Pos.eq_dec xs x.
Proof.
  intros Hne. induction xs as [|y xs IH]; [done|].
  rewrite filter_cons. destruct (decide (y ≠ C)) as [Hy|Hy]; simpl.
  - destruct (Pos.eq_dec y x); by rewrite IH.
  - apply dec_stable in Hy. subst y.
    destruct (Pos.eq_dec C x) as [->|_]; [done|]. apply IH.
Qed.

Lemma length_filter_ne (C : Ref) (xs : list Ref) :
  length (base.filter (fun dest => dest ≠ C) xs) + count_occ Pos.eq_dec xs C = length xs.
Proof.
  induction xs as [|y xs IH]; [done|].
  rewrite filter_cons. destruct (decide (y ≠ C)) as [Hy|Hy]; simpl.
  - destruct (Pos.eq_dec y C) as [->|_]; [done|]. by rewrite IH.
  - apply dec_stable in Hy. subst y.
    destruct (Pos.eq_dec C C); [|done]. lia.
Qed.

Lemma filter_ne_fresh (C : Ref) (xs : list Ref) :
  C ∉ xs → base.filter (fun dest => dest ≠ C) xs = xs.
Proof.
  induction xs as [|y xs IH]; intros Hfresh; [done|].
  apply not_elem_of_cons in Hfresh as [Hne Hfresh].
  rewrite filter_cons. destruct (decide (y ≠ C)); [|done].
  by rewrite IH.
Qed.

Lemma pipe_fanout this destination options w :
  getDownstreamStreams this (pipe this destination options w).2 =
  getDownstreamStreams this w ++ [resolved destination options w].
Proof.
  unfold getDownstreamStreams at 1. rewrite pipe_nodes_unlistened. cbv zeta.
  apply fanout_set_zDownstreamStreams.
Qed.

Lemma unpipe_fanout_eq this (target : option Ref) w :
  getDownstreamStreams this (unpipe this target w).2 =
    match target with
    | Some C => base.filter (fun dest => dest ≠ C) (getDownstreamStreams this w)
    | None => []
    end.
Proof.
  rewrite unpipe_steps. cbv zeta. simpl.
  unfold getDownstreamStreams at 1. rewrite nodes_mark_dirty.
  apply fanout_set_zDownstreamStreams.
Qed.

End ConnectionProperties.

Section ConnectionClaims.

Context {UserState : Type} `{!@Host UserState}.
Implicit Types (w : @World UserState) (this destination r : Ref) (c : ChainRef).

(** C1: when the wiring step of [pipe] has registered its default ['error']
    listener [d], a new closure, ahead of the listeners the consumer already
    had, [pipe] removes exactly [d]: afterwards the consumer has the
    listeners it had before the call, all of them and in the same order, and
    the listeners of every other object are as the wiring step left
    them. *)
Theorem pipe_removes_default_error_listener this destination options w (d : Listener) :
  let C := resolved destination options w in
  (zSuperObj_pipe this C options w).2 !! C = Some (d :: listeners C w) →
  d ∉ listeners C w →
  let w' := (pipe this destination options w).2 in
  listeners C w' = listeners C w
  ∧ (d ∉ listeners C w')
  ∧ ∀ r, r ≠ C → listeners r w' = default [] ((zSuperObj_pipe this C options w).2 !! r).
Proof.
  intros C Hwired Hfresh w'.
  destruct (pipe_drops_one_registration this destination options w d (listeners C w) Hwired)
    as (_ & Hleft & Hothers).
  fold C w' in Hleft.
  assert (Hkept : listeners C w' = listeners C w).
  { rewrite Hleft. by apply remove_latest_of_fresh_head. }
  split; [exact Hkept|]. split; [by rewrite Hkept|exact Hothers].
Qed.

(** C2, as the code has it: [unpipe] with a consumer keeps, in order, the
    entries of the fanout that are not that consumer and drops every entry
    that is, however many there are (one when it occurs once, none when it
    is absent); with no consumer it empties the fanout. *)
Theorem unpipe_fanout this (target : option Ref) w :
  let before := getDownstreamStreams this w in
  let after := getDownstreamStreams this (unpipe this target w).2 in
  match target with
  | Some C =>
      after = base.filter (fun dest => dest ≠ C) before
      ∧ (C ∉ after)
      ∧ (∀ x, x ≠ C → count_occ Pos.eq_dec after x = count_occ Pos.eq_dec before x)
      ∧ length after + count_occ Pos.eq_dec before C = length before
      ∧ (∀ pre post, before = pre ++ C :: post → C ∉ pre → C ∉ post → after = pre ++ post)
  | None => after = []
  end.
Proof.
  intros before after. unfold after. rewrite unpipe_fanout_eq. fold before.
  destruct target as [C|]; [|done].
  split; [done|]. split; [|split; [|split]].
  - rewrite list_elem_of_filter. by intros [Hne _].
  - intros x Hne. by apply count_occ_filter_ne.
  - apply length_filter_ne.
  - intros pre post -> Hpre Hpost.
    rewrite filter_app, filter_cons.
    destruct (decide (C ≠ C)); [done|].
    by rewrite !filter_ne_fresh.
Qed.

(** C3: after [pipe], the fanout of the producer is the fanout before with
    the consumer appended: the consumer occurs once more than before, it is
    the last entry, the other producers' fanouts are untouched, and a second
    [pipe] of the same consumer appends it again.  The consumer is the
    argument itself when it is a ZStream or conversion is switched off, and
    the adapter's stream for it otherwise. *)
Theorem pipe_appends_to_fanout this destination options w :
  let C := resolved destination options w in
  let w' := (pipe this destination options w).2 in
  getDownstreamStreams this w' = getDownstreamStreams this w ++ [C]
  ∧ count_occ Pos.eq_dec (getDownstreamStreams this w') C
    = S (count_occ Pos.eq_dec (getDownstreamStreams this w) C)
  ∧ last (getDownstreamStreams this w') = Some C
  ∧ (∀ r, r ≠ this → getDownstreamStreams r w' = getDownstreamStreams r w)
  ∧ getDownstreamStreams this (pipe this destination options w').2
    = getDownstreamStreams this w ++ [C; C]
  ∧ (truthy (isZStream (nodes w !!! destination)) = true → C = destination)
  ∧ (∀ o, options = Some o → truthy (noConvert o) = true → C = destination).
Proof.
  intros C w'. unfold w'. rewrite !pipe_fanout, resolved_pipe. fold C.
  repeat split.
  - rewrite count_occ_app. simpl.
    destruct (Pos.eq_dec C C); [apply Nat.add_1_r|done].
  - apply last_snoc.
  - intros r Hne. unfold getDownstreamStreams. rewrite pipe_nodes_unlistened.
    cbv zeta. unfold set_zDownstreamStreams. simpl.
    by rewrite lookup_total_insert_ne.
  - by rewrite <- app_assoc.
  - intros Hz. unfold C, resolved. by rewrite Hz.
  - intros o -> Hno. unfold C, resolved. rewrite Hno. simpl.
    by rewrite andb_false_r.
Qed.

Lemma chain_after_pipe this destination options w r :
  currentStreamChain (nodes (pipe this destination options w).2 !!! r)
  = currentStreamChain (nodes w !!! r).
Proof.
  rewrite pipe_nodes_unlistened. cbv zeta. apply chain_set_zDownstreamStreams.
Qed.

Lemma chain_after_unpipe this (target : option Ref) w r :
  currentStreamChain (nodes (unpipe this target w).2 !!! r)
  = currentStreamChain (nodes w !!! r).
Proof.
  rewrite unpipe_steps. cbv zeta. simpl.
  by rewrite nodes_mark_dirty, chain_set_zDownstreamStreams.
Qed.

Lemma dirty_stays_after_pipe this destination options w c :
  dirty c w = Some true → dirty c (pipe this destination options w).2 = Some true.
Proof.
  unfold dirty. rewrite pipe_chains. cbv zeta.
  destruct (currentStreamChain (nodes w !!! this)) as [c1|],
    (currentStreamChain (nodes w !!! resolved destination options w)) as [c2|];
    rewrite ?lookup_insert; repeat case_decide; done.
Qed.

Lemma dirty_stays_after_unpipe this (target : option Ref) w c :
  dirty c w = Some true → dirty c (unpipe this target w).2 = Some true.
Proof.
  unfold dirty. rewrite unpipe_chains.
  destruct (currentStreamChain (nodes w !!! this)) as [c1|];
    rewrite ?lookup_insert; repeat case_decide; done.
Qed.

(** The state of the chain views that the comment in [unpipe] relies on is
    kept by the connection primitive itself: it holds of a stream that has
    just been constructed, and [pipe] and [unpipe], on whatever stream they
    are called, keep it for every stream. *)
Lemma destinations_share_chain_kept this destination options (target : option Ref) w P :
  destinations_share_chain P (_Readable P w)
  ∧ (destinations_share_chain P w →
     destinations_share_chain P (pipe this destination options w).2)
  ∧ (destinations_share_chain P w →
     destinations_share_chain P (unpipe this target w).2).
Proof.
  split; [|split].
  - intros N c HN _. unfold _Readable in HN.
    rewrite fanout_set_zDownstreamStreams in HN. by apply elem_of_nil in HN.
  - intros Hinv N c HN Hc. rewrite chain_after_pipe in Hc. rewrite chain_after_pipe.
    assert (Hold : N ∈ getDownstreamStreams P w → 
              dirty c (pipe this destination options w).2 = Some true
              ∨ currentStreamChain (nodes w !!! P) = Some c).
    { intros Hin. destruct (Hinv N c Hin Hc) as [Hd|Hs]; [left|by right].
      by apply dirty_stays_after_pipe. }
    destruct (decide (P = this)) as [->|Hne].
    + rewrite pipe_fanout in HN. apply elem_of_app in HN as [HN|HN]; [by apply Hold|].
      apply list_elem_of_singleton in HN as ->. left.
      unfold dirty. rewrite pipe_chains. cbv zeta. rewrite Hc. apply lookup_insert_eq.
    + apply Hold. revert HN. unfold getDownstreamStreams.
      rewrite pipe_nodes_unlistened. cbv zeta. unfold set_zDownstreamStreams. simpl.
      by rewrite lookup_total_insert_ne.
  - intros Hinv N c HN Hc. rewrite chain_after_unpipe in Hc. rewrite chain_after_unpipe.
    assert (Hin : N ∈ getDownstreamStreams P w).
    { destruct (decide (P = this)) as [->|Hne].
      - rewrite unpipe_fanout_eq in HN. destruct target as [C|].
        + by apply list_elem_of_filter in HN as [_ HN].
        + by apply elem_of_nil in HN.
      - revert HN. unfold getDownstreamStreams. rewrite unpipe_steps. cbv zeta. simpl.
        rewrite nodes_mark_dirty. unfold set_zDownstreamStreams. simpl.
        by rewrite lookup_total_insert_ne. }
    destruct (Hinv N c Hin Hc) as [Hd|Hs]; [left|by right].
    by apply dirty_stays_after_unpipe.
Qed.

(** C4: in a world where a destination's chain view that is not already
    dirty is the one its stream points to (the state the chain computation
    leaves and the comment in [unpipe] relies on), every stream touched by
    [pipe] (the producer, the consumer) or by [unpipe] (the producer, its
    destinations) that has a chain view has it dirty after the call: [pipe]
    sets the flag for both, [unpipe] sets it for the producer, which covers
    the destinations.  Neither call ever clears a flag: one that was set
    stays set, and one that is clear afterwards was clear before. *)
Theorem connect_disconnect_dirty this destination options (target : option Ref) w :
  destinations_share_chain this w →
  let C := resolved destination options w in
  let piped := (pipe this destination options w).2 in
  let unpiped := (unpipe this target w).2 in
  (∀ c, currentStreamChain (nodes w !!! this) = Some c → dirty c piped = Some true)
  ∧ (∀ c, currentStreamChain (nodes w !!! C) = Some c → dirty c piped = Some true)
  ∧ (∀ c, currentStreamChain (nodes piped !!! C) = Some c → dirty c piped = Some true)
  ∧ (∀ c, currentStreamChain (nodes w !!! this) = Some c → dirty c unpiped = Some true)
  ∧ (∀ N c, N ∈ getDownstreamStreams this w →
       currentStreamChain (nodes w !!! N) = Some c → dirty c unpiped = Some true)
  ∧ (∀ c, dirty c w = Some true → dirty c piped = Some true ∧ dirty c unpiped = Some true)
  ∧ (∀ c, dirty c piped = Some false → dirty c w = Some false)
  ∧ (∀ c, dirty c unpiped = Some false → dirty c w = Some false).
Proof.
  intros Hinv C piped unpiped.
  assert (Hpiped_this : ∀ c, currentStreamChain (nodes w !!! this) = Some c →
            dirty c piped = Some true).
  { intros c Hc. unfold piped, dirty. rewrite pipe_chains. cbv zeta. fold C. rewrite Hc.
    destruct (currentStreamChain (nodes w !!! C)) as [c'|]; [|apply lookup_insert_eq].
    destruct (decide (c' = c)) as [->|Hne]; [apply lookup_insert_eq|].
    rewrite lookup_insert_ne by done. apply lookup_insert_eq. }
  assert (Hpiped_C : ∀ c, currentStreamChain (nodes w !!! C) = Some c →
            dirty c piped = Some true).
  { intros c Hc. unfold piped, dirty. rewrite pipe_chains. cbv zeta. fold C. rewrite Hc.
    apply lookup_insert_eq. }
  assert (Hunpiped_this : ∀ c, currentStreamChain (nodes w !!! this) = Some c →
            dirty c unpiped = Some true).
  { intros c Hc. unfold unpiped, dirty. rewrite unpipe_chains, Hc. apply lookup_insert_eq. }
  split; [exact Hpiped_this|]. split; [exact Hpiped_C|].
  split; [intros c Hc; apply Hpiped_C; by rewrite <- (chain_after_pipe this destination options)|].
  split; [exact Hunpiped_this|].
  split; [|split; [|split]].
  - intros N c HN Hc. destruct (Hinv N c HN Hc) as [Hd|Hs].
    + by apply dirty_stays_after_unpipe.
    + by apply Hunpiped_this.
  - intros c Hc. split; [by apply dirty_stays_after_pipe|by apply dirty_stays_after_unpipe].
  - intros c. unfold piped, dirty. rewrite pipe_chains. cbv zeta. fold C.
    destruct (currentStreamChain (nodes w !!! this)) as [c1|],
      (currentStreamChain (nodes w !!! C)) as [c2|];
      rewrite ?lookup_insert; repeat case_decide; done.
  - intros c. unfold unpiped, dirty. rewrite unpipe_chains.
    destruct (currentStreamChain (nodes w !!! this)) as [c1|];
      rewrite ?lookup_insert; repeat case_decide; done.
Qed.

(** C6: [tee] leaves the world exactly as [pipe] with the same arguments
    leaves it (fanout, ['error'] listeners, dirty flags and all the rest)
    and returns the producer it was called on. *)
Theorem tee_is_pipe_returning_producer this destination options w :
  (tee this destination options w).2 = (pipe this destination options w).2
  ∧ (tee this destination options w).1 = this.
Proof.
  unfold tee. by destruct (pipe this destination options w).
Qed.

End ConnectionClaims.

(** ** Convenience constructors *)

Section Constructors.

Context {UserState : Type} `{!@Host UserState}.
Implicit Types (w : @World UserState) (this : Ref) (s : @Stage UserState).
Implicit Types (f : @JSFunction UserState) (cb : @Callback UserState).

(** A constructor that pipes into [new Class(...)] leaves that stage at the
    reference that was free when it was called. *)
Lemma created_piped this s w :
  created w (let '(stage, w1) := new_ s w in pipe this stage None w1).2 = Some s.
Proof.
  unfold new_, created. destruct (construct s) as [n ls].
  rewrite pipe_stages. simpl. apply lookup_insert_eq.
Qed.

Lemma created_sunk this s (k : Arg) w :
  created w
    (let '(stage, w1) := new_ s w in
     let '(sink, w2) := pipe this stage None w1 in
     let '(_, em) := intoCallback sink k w2 in
     set_emitters (fun _ => em) w2) = Some s.
Proof.
  unfold new_, created. destruct (construct s) as [n ls].
  destruct (pipe _ _ _ _) as [sink w2] eqn:Hpipe.
  destruct (intoCallback _ _ _) as [r em]. simpl.
  change w2 with (sink, w2).2. rewrite <- Hpipe, pipe_stages. simpl.
  apply lookup_insert_eq.
Qed.

Lemma created_through this f objectMode w :
  let upstream := VBool (isReadableObjectMode this w) in
  created w (through this f objectMode w).2 =
    Some (ThroughStream
            (fun receiver args => discarding (f receiver [arg 0 args; arg 2 args]))
            upstream
            (if is_undefined objectMode then upstream else objectMode)).
Proof.
  unfold through. rewrite created_piped. cbv zeta.
  by destruct objectMode.
Qed.

Lemma created_filter this f w :
  created w (filter this f w).2 = Some (FilterStream f (VBool true)).
Proof. apply created_piped. Qed.

Lemma created_split this delimiter w :
  created w (split this delimiter w).2 =
    Some (SplitStream (if truthy delimiter then delimiter else VRegExp "\r?\n")).
Proof. apply created_piped. Qed.

Lemma created_batch this batchSize w :
  created w (batch this batchSize w).2 =
    Some (BatchStream (if isNaN (parseInt DoubleToString batchSize) then Integer 10
                       else parseInt DoubleToString batchSize)).
Proof. apply created_piped. Qed.

Lemma created_pluck this property w :
  created w (pluck this property w).2 =
    Some (PluckStream (if truthy property then property else VStr "value")).
Proof. apply created_piped. Qed.

Lemma created_intersperse this seperator w :
  created w (intersperse this seperator w).2 =
    Some (IntersperseStream
            (if (is_null seperator || is_undefined seperator)%bool then VStr newline
             else seperator)
            (VBool (isReadableObjectMode this w))).
Proof. apply created_piped. Qed.

Lemma created_each this f w :
  created w (each this f w).2 =
    Some (FunctionWritableStream f (VBool (isReadableObjectMode this w))).
Proof. apply created_piped. Qed.

Lemma created_intoArray this cb w :
  created w (intoArray this cb w) =
    Some (ArrayWritableStream (VBool (isReadableObjectMode this w))).
Proof.
  unfold intoArray.
  etransitivity; [|apply (created_sunk this _ (ArgValue VUndefined) w)].
  unfold new_, created. destruct (construct _) as [n ls].
  destruct (pipe _ _ _ _) as [sink w2].
  by do 2 destruct (intoCallback _ _ _).
Qed.

Lemma created_intoString this cb w :
  created w (intoString this cb w) =
    Some (StringWritableStream (VBool (isReadableObjectMode this w))).
Proof.
  unfold intoString.
  etransitivity; [|apply (created_sunk this _ (ArgValue VUndefined) w)].
  unfold new_, created. destruct (construct _) as [n ls].
  destruct (pipe _ _ _ _) as [sink w2].
  by do 2 destruct (intoCallback _ _ _).
Qed.

Lemma created_intoFile this path (options k : Arg) w :
  created w (intoFile this path options k w).2 =
    Some (FileWriteStream path (if is_function options then ArgValue VNull else options)).
Proof.
  unfold intoFile.
  destruct (is_function options); cbv zeta beta iota.
  all: etransitivity; [|apply (created_sunk this _ (ArgValue VUndefined) w)].
  all: unfold new_, created; destruct (construct _) as [n ls].
  all: destruct (pipe _ _ _ _) as [sink w2].
  all: by do 2 destruct (intoCallback _ _ _).
Qed.

End Constructors.

Section ConstructorClaims.

Context {UserState : Type} `{!@Host UserState}.
Implicit Types (w : @World UserState) (this : Ref) (s : @Stage UserState).
Implicit Types (f : @JSFunction UserState) (cb : @Callback UserState).


(** The values that count as false. *)
Lemma falsy_values (v : JSValue) :
  truthy v = false ↔
  v = VUndefined ∨ v = VNull ∨ v = VBool false ∨ v = VNum NaN
  ∨ (∃ neg e, v = VNum (Finite neg 0 e)) ∨ v = VStr "".
Proof.
  split.
  - destruct v as [ | | [] | [ | neg | neg m e] | s | | ]; simpl; try discriminate; eauto 8.
    + destruct m; [eauto 10|discriminate].
    + destruct s; [eauto 10|discriminate].
  - intros [-> | [-> | [-> | [-> | [(neg & e & ->) | ->]]]]]; reflexivity.
Qed.

(** C5, as the code has it: [through] and its variants give the new stage
    the upstream's object mode for its consuming side and, for its producing
    side, the [objectMode] argument when it is not [undefined] and the
    upstream's object mode otherwise; [intersperse], [each], [intoArray] and
    [intoString] give it the upstream's object mode for both sides; [filter]
    and [filterSync] give it object mode [true] whatever the upstream's is;
    [split], [batch], [pluck] and [intoFile] give it no mode at all. *)
Theorem constructors_object_mode this w f cb (objectMode v : JSValue) (a k : Arg) :
  let upstream := VBool (isReadableObjectMode this w) in
  let chosen := if is_undefined objectMode then upstream else objectMode in
  created_modes w (through this f objectMode w).2 = Some (Some upstream, Some chosen)
  ∧ created_modes w (throughSync this f objectMode w).2 = Some (Some upstream, Some chosen)
  ∧ created_modes w (throughObj this f w).2 = Some (Some upstream, Some (VBool true))
  ∧ created_modes w (throughObjSync this f w).2 = Some (Some upstream, Some (VBool true))
  ∧ created_modes w (throughData this f w).2 = Some (Some upstream, Some (VBool false))
  ∧ created_modes w (throughDataSync this f w).2 = Some (Some upstream, Some (VBool false))
  ∧ created_modes w (intersperse this v w).2 = Some (Some upstream, Some upstream)
  ∧ created_modes w (each this f w).2 = Some (Some upstream, Some upstream)
  ∧ created_modes w (intoArray this cb w) = Some (Some upstream, Some upstream)
  ∧ created_modes w (intoString this cb w) = Some (Some upstream, Some upstream)
  ∧ created_modes w (filter this f w).2 = Some (Some (VBool true), Some (VBool true))
  ∧ created_modes w (filterSync this f w).2 = Some (Some (VBool true), Some (VBool true))
  ∧ created_modes w (split this v w).2 = Some (None, None)
  ∧ created_modes w (batch this v w).2 = Some (None, None)
  ∧ created_modes w (pluck this v w).2 = Some (None, None)
  ∧ created_modes w (intoFile this v a k w).2 = Some (None, None).
Proof.
  intros upstream chosen. unfold created_modes.
  unfold throughObj, throughObjSync, throughData, throughDataSync, throughSync, filterSync.
  rewrite !created_through, !created_filter, created_intersperse, created_each,
    created_intoArray, created_intoString, created_split, created_batch,
    created_pluck, created_intoFile.
  repeat split.
Qed.

(** C7: the function that [throughSync] (and so [throughObjSync] and
    [throughDataSync], which are [throughSync] with the mode fixed) gives
    its stage, and the one [filterSync] gives its stage, call the caller's
    [f] on the chunk; when [f] raises [ex] they call [cb(ex)] and do nothing
    else; when [f] returns [v] they call [cb(null, v)].  What [f] raises
    never leaves the stage function: it ends as the callback ends, so it
    returns normally whenever the callback does. *)
Theorem sync_wrappers_forward_exceptions this f (objectMode : JSValue) w :
  let forwarded (receiver : option Ref) (chunk : Arg) cb : M JSValue :=
    fun st =>
      match f receiver [chunk] st with
      | (Thrown ex, st1) => discarding (cb [ex]) st1
      | (Returned v, st1) =>
          match cb [VNull; v] st1 with
          | (Returned _, st2) => (Returned VUndefined, st2)
          | (Thrown ex, st2) => discarding (cb [ex]) st2
          end
      end in
  let never_raises cb := ∀ args st, ∃ v st', cb args st = (Returned v, st') in
  (∃ T wm rm,
      created w (throughSync this f objectMode w).2 = Some (ThroughStream T wm rm)
      ∧ ∀ stage chunk enc cb st,
          T stage [chunk; enc; ArgFunction cb] st = forwarded stage chunk cb st
          ∧ (never_raises cb →
             ∃ st', T stage [chunk; enc; ArgFunction cb] st = (Returned VUndefined, st')))
  ∧ (∃ F om,
      created w (filterSync this f w).2 = Some (FilterStream F om)
      ∧ ∀ stage chunk cb st,
          F stage [chunk; ArgFunction cb] st = forwarded None chunk cb st
          ∧ (never_raises cb →
             ∃ st', F stage [chunk; ArgFunction cb] st = (Returned VUndefined, st')))
  ∧ throughObjSync this f w = throughSync this f (VBool true) w
  ∧ throughDataSync this f w = throughSync this f (VBool false) w.
Proof.
  intros forwarded never_raises.
  assert (Hend : ∀ receiver chunk cb st, never_raises cb →
            ∃ st', forwarded receiver chunk cb st = (Returned VUndefined, st')).
  { intros receiver chunk cb st Hcb. unfold forwarded, discarding, bind, ret.
    destruct (f receiver [chunk] st) as [[v|ex] st1].
    - destruct (Hcb [VNull; v] st1) as (v' & st2 & ->). eauto.
    - destruct (Hcb [ex] st1) as (v' & st2 & ->). eauto. }
  split; [|split; [|split; reflexivity]].
  - unfold throughSync. do 3 eexists. split; [apply created_through|].
    intros stage chunk enc cb st.
    assert (Heq : discarding (throughSync_wrapper f stage [chunk; ArgFunction cb]) st
                  = forwarded stage chunk cb st).
    { unfold forwarded, discarding, throughSync_wrapper, try_catch, bind, ret, call, arg.
      simpl. destruct (f stage [chunk] st) as [[v|ex] st1]; [|done].
      destruct (cb [VNull; v] st1) as [[v'|ex] st2]; done. }
    split; [exact Heq|].
    intros Hcb. cbn [arg nth]. rewrite Heq. by apply Hend.
  - unfold filterSync. do 2 eexists. split; [apply created_filter|].
    intros stage chunk cb st.
    assert (Heq : filterSync_wrapper f stage [chunk; ArgFunction cb] st
                  = forwarded None chunk cb st).
    { unfold forwarded, discarding, filterSync_wrapper, try_catch, bind, ret, call, arg.
      simpl. destruct (f None [chunk] st) as [[v|ex] st1]; [|done].
      destruct (cb [VNull; v] st1) as [[v'|ex] st2]; done. }
    split; [exact Heq|].
    intros Hcb. rewrite Heq. by apply Hend.
Qed.

(** C9: [intersperse(s)] builds its stage with the newline as separator
    when [s] is [undefined] (or missing) or [null], and with [s] itself in
    every other case, the empty string included. *)
Theorem intersperse_separator this (sep : JSValue) w :
  let built := created w (intersperse this sep w).2 in
  let mode := VBool (isReadableObjectMode this w) in
  (sep = VUndefined ∨ sep = VNull → built = Some (IntersperseStream (VStr newline) mode))
  ∧ (sep ≠ VUndefined → sep ≠ VNull → built = Some (IntersperseStream sep mode))
  ∧ (sep = VStr "" → built = Some (IntersperseStream (VStr "") mode))
  ∧ VStr "" ≠ VStr newline.
Proof.
  intros built mode. unfold built. rewrite created_intersperse. fold mode.
  repeat split.
  - by intros [->| ->].
  - intros Hu Hn. by destruct sep.
  - by intros ->.
  - discriminate.
Qed.

(** C10: [pluck(p)] builds its stage with the key ["value"] for every [p]
    that counts as false, which is so for the empty string, zero, [null] and
    [undefined] (and NaN and [false]), and with [p] itself only when [p]
    counts as true. *)
Theorem pluck_property this (p : JSValue) w :
  let built := created w (pluck this p w).2 in
  (truthy p = false → built = Some (PluckStream (VStr "value")))
  ∧ (truthy p = true → built = Some (PluckStream p))
  ∧ (p ∈ [VStr ""; VNum (Integer 0); VNull; VUndefined; VNum NaN; VBool false] →
     built = Some (PluckStream (VStr "value")))
  ∧ (built = Some (PluckStream p) → truthy p = true ∨ p = VStr "value").
Proof.
  intros built. unfold built. rewrite created_pluck.
  repeat split.
  - by intros ->.
  - by intros ->.
  - intros Hp. repeat (apply elem_of_cons in Hp as [->|Hp]); try done.
    by apply elem_of_nil in Hp.
  - destruct (truthy p); [by left|]. intros [= <-]. by right.
Qed.

End ConstructorClaims.

(** ** The model at work *)

(** Witness of C1: stream 2 carries the caller's listener 7; the native
    [pipe] registers its closure 8 ahead of it; after [pipe] stream 2 has
    listener 7 alone. *)
Lemma pipe_removes_default_error_listener_witness :
  let C := resolved (H := prepending_host) consumer None example_world in
  (zSuperObj_pipe (Host := prepending_host) producer C None example_world).2 !! C
    = Some (default_listener :: listeners C example_world)
  ∧ (default_listener ∉ listeners C example_world)
  ∧ listeners consumer (pipe (H := prepending_host) producer consumer None example_world).2
    = [callers_listener].
Proof.
  intros C.
  assert (Hwired :
    (zSuperObj_pipe (Host := prepending_host) producer C None example_world).2 !! C
      = Some (default_listener :: listeners C example_world))
    by (vm_compute; reflexivity).
  assert (Hfresh : default_listener ∉ listeners C example_world)
    by (apply (bool_decide_unpack _); vm_compute; exact I).
  split; [exact Hwired|]. split; [exact Hfresh|].
  exact (proj1 (pipe_removes_default_error_listener (H := prepending_host)
                  producer consumer None example_world default_listener Hwired Hfresh)).
Defined.

(** Witness of C4: in [example_world] the destinations of stream 1 share
    its chain view, which is clean; after [unpipe] of stream 2 from stream
    1 the chain view of stream 2 is dirty. *)
Lemma connect_disconnect_dirty_witness :
  destinations_share_chain producer example_world
  ∧ (consumer ∈ getDownstreamStreams producer example_world)
  ∧ currentStreamChain (nodes example_world !!! consumer) = Some shared_chain
  ∧ dirty shared_chain example_world = Some false
  ∧ dirty shared_chain
      (unpipe (H := prepending_host) producer (Some consumer) example_world).2
    = Some true.
Proof.
  assert (Hin : consumer ∈ getDownstreamStreams producer example_world)
    by (apply (bool_decide_unpack _); vm_compute; exact I).
  assert (Hchain : currentStreamChain (nodes example_world !!! consumer) = Some shared_chain)
    by (vm_compute; reflexivity).
  assert (Hinv : destinations_share_chain producer example_world).
  { intros N c HN Hc. right.
    assert (HN' : N ∈ [consumer; consumer]) by exact HN.
    assert (N = consumer) as ->.
    { apply elem_of_cons in HN' as [->|HN']; [done|].
      apply elem_of_cons in HN' as [->|HN']; [done|]. by apply elem_of_nil in HN'. }
    rewrite Hchain in Hc. injection Hc as <-. vm_compute. reflexivity. }
  split; [exact Hinv|]. split; [exact Hin|]. split; [exact Hchain|].
  split; [vm_compute; reflexivity|].
  destruct (connect_disconnect_dirty (H := prepending_host) producer consumer None
              (Some consumer) example_world Hinv)
    as (_ & _ & _ & _ & Hdest & _).
  exact (Hdest consumer shared_chain Hin Hchain).
Defined.

(** With a native [pipe] that registers its closure after the listeners
    already there, the listener that heads the list, and goes, is the
    caller's 7; the closure 8 stays. *)
Example pipe_on_appending_host :
  listeners consumer (pipe (H := appending_host) producer consumer None example_world).2
  = [default_listener].
Proof. vm_compute. reflexivity. Qed.

(** Counterexample to C2 as stated: stream 2 is twice in the fanout of
    stream 1, and one [unpipe] of it removes both entries, not exactly
    one. *)
Lemma unpipe_removes_every_entry :
  getDownstreamStreams producer example_world = [consumer; consumer]
  ∧ getDownstreamStreams producer
      (unpipe (H := prepending_host) producer (Some consumer) example_world).2 = [].
Proof. split; vm_compute; reflexivity. Qed.

(** Counterexample to C5 as stated: stream 1 is in data mode, and the stage
    [filter] builds on it is in object mode on both sides; the stage [split]
    builds is given no mode. *)
Lemma filter_ignores_upstream_mode :
  isReadableObjectMode producer example_world = false
  ∧ created_modes example_world
      (filter (H := prepending_host) producer raises_on_two example_world).2
    = Some (Some (VBool true), Some (VBool true))
  ∧ created_modes example_world
      (split (H := prepending_host) producer VUndefined example_world).2
    = Some (None, None).
Proof. repeat split; vm_compute; reflexivity. Qed.

(** The stage function of [throughSync] on a transform that raises on 2:
    the callback receives the error, and the call returns. *)
Example throughSync_raise_reaches_callback :
  match created example_world
          (throughSync (H := prepending_host) producer raises_on_two VUndefined example_world).2 with
  | Some (ThroughStream T _ _) =>
      (T None [ArgValue (VNum (Integer 2)); ArgValue VUndefined;
               ArgFunction recording_callback] []
       = (Returned VUndefined, [[VError "Error" "two"]]))
      ∧ T None [ArgValue (VNum (Integer 3)); ArgValue VUndefined;
                ArgFunction recording_callback] []
        = (Returned VUndefined, [[VNull; VNum (Integer 3)]])
  | _ => False
  end.
Proof. vm_compute. split; reflexivity. Qed.

(** What [parseInt] reads: a leading integer is enough. *)
Example parseInt_reads_leading_integer :
  parseInt (fun _ _ _ => "") (VStr "5") = Integer 5
  ∧ parseInt (fun _ _ _ => "") (VStr "12px") = Integer 12
  ∧ parseInt (fun _ _ _ => "") (VStr " 0x1F") = Integer 31
  ∧ parseInt (fun _ _ _ => "") (VStr "5.7") = Integer 5
  ∧ parseInt (fun _ _ _ => "") (VStr "-3") = Finite true 3 0
  ∧ parseInt (fun _ _ _ => "") (VNum (Integer 42)) = Integer 42
  ∧ parseInt (fun _ _ _ => "") (VStr "abc") = NaN
  ∧ parseInt (fun _ _ _ => "") (VBool true) = NaN.
Proof. repeat split; vm_compute; reflexivity. Qed.

(** ** Further properties of the connection primitive *)

Section ConnectionFurther.

Context {UserState : Type} `{!@Host UserState}.
Implicit Types (w : @World UserState) (this destination r : Ref) (c : ChainRef).
Implicit Types (ls : list Listener) (l : Listener).

Lemma objectMode_set_zDownstreamStreams r ds w r' :
  readableState_objectMode (nodes (set_zDownstreamStreams r ds w) !!! r') =
  readableState_objectMode (nodes w !!! r').
Proof.
  unfold set_zDownstreamStreams; simpl.
  destruct (decide (r = r')) as [->|Hne].
  - by rewrite lookup_total_insert_eq.
  - by rewrite lookup_total_insert_ne.
Qed.

Lemma unpipe_nodes this (target : option Ref) w :
  nodes (unpipe this target w).2 =
    nodes (set_zDownstreamStreams this
             match target with
             | Some C => base.filter (fun dest => dest ≠ C) (getDownstreamStreams this w)
             | None => []
             end w).
Proof.
  rewrite unpipe_steps. cbv zeta. simpl. by rewrite nodes_mark_dirty.
Qed.

Lemma remove_first_split l ls :
  l ∈ ls →
  ∃ pre post, ls = pre ++ l :: post ∧ (l ∉ pre) ∧ remove_first l ls = pre ++ post.
Proof.
  induction ls as [|x ls IH]; intros Hin.
  - by apply elem_of_nil in Hin.
  - simpl. destruct (decide (x = l)) as [->|Hne].
    + exists [], ls. split; [done|]. split; [apply not_elem_of_nil|done].
    + apply elem_of_cons in Hin as [->|Hin]; [done|].
      destruct (IH Hin) as (pre & post & -> & Hpre & ->).
      exists (x :: pre), post. split; [done|]. split; [|done].
      apply not_elem_of_cons. split; [congruence|done].
Qed.

(** X1: piping into a consumer that was not in the fanout and un-piping it
    again gives the fanout back as it was. *)
Theorem pipe_unpipe_restores_fanout this destination options w :
  let C := resolved destination options w in
  C ∉ getDownstreamStreams this w →
  getDownstreamStreams this (unpipe this (Some C) (pipe this destination options w).2).2
  = getDownstreamStreams this w.
Proof.
  intros C Hnew. rewrite unpipe_fanout_eq, pipe_fanout. fold C.
  rewrite filter_app, filter_ne_fresh by done.
  rewrite filter_cons. destruct (decide (C ≠ C)); [done|].
  by rewrite filter_nil, app_nil_r.
Qed.

(** X2: un-piping the same target a second time changes neither a stream
    object nor a chain view. *)
Theorem unpipe_twice this (target : option Ref) w :
  let once := (unpipe this target w).2 in
  let twice := (unpipe this target once).2 in
  nodes twice = nodes once ∧ chains twice = chains once.
Proof.
  intros once twice. unfold twice. split.
  - rewrite (unpipe_nodes this target once). unfold set_zDownstreamStreams. simpl.
    assert (Hfan : getDownstreamStreams this once =
              match target with
              | Some C => base.filter (fun dest => dest ≠ C) (getDownstreamStreams this w)
              | None => []
              end) by apply unpipe_fanout_eq.
    assert (Hkept :
      match target with
      | Some C => base.filter (fun dest => dest ≠ C) (getDownstreamStreams this once)
      | None => []
      end = getDownstreamStreams this once).
    { destruct target as [C|]; [|done]. rewrite Hfan.
      apply filter_ne_fresh. rewrite list_elem_of_filter. by intros [Hne _]. }
    rewrite Hkept. unfold getDownstreamStreams.
    apply map_eq. intros r. destruct (decide (this = r)) as [<-|Hne].
    + rewrite lookup_insert_eq. unfold once at 5.
      rewrite unpipe_nodes. unfold set_zDownstreamStreams. simpl.
      rewrite lookup_insert_eq. f_equal.
      unfold once. rewrite unpipe_nodes. unfold set_zDownstreamStreams. simpl.
      by rewrite lookup_total_insert_eq.
    + by rewrite lookup_insert_ne.
  - rewrite (unpipe_chains this target once). unfold once at 1.
    rewrite unpipe_nodes, chain_set_zDownstreamStreams.
    unfold once. rewrite unpipe_chains.
    destruct (currentStreamChain (nodes w !!! this)) as [c|]; [|done].
    apply insert_insert_eq.
Qed.

(** X3: [unpipe] compares its argument as it is given; when [pipe] replaced
    a foreign object by the adapter's stream, un-piping the foreign object
    leaves the adapter's stream in the fanout. *)
Theorem unpipe_takes_no_adapter this destination w :
  truthy (isZStream (nodes w !!! destination)) = false →
  convertToZStream destination ≠ destination →
  destination ∉ getDownstreamStreams this w →
  getDownstreamStreams this (unpipe this (Some destination) (pipe this destination None w).2).2
  = getDownstreamStreams this w ++ [convertToZStream destination].
Proof.
  intros Hforeign Hwrapped Hnew. rewrite unpipe_fanout_eq, pipe_fanout.
  unfold resolved. rewrite Hforeign. simpl.
  rewrite filter_app, filter_ne_fresh by done.
  rewrite filter_cons. by destruct (decide (convertToZStream destination ≠ destination)).
Qed.

Lemma resolved_after_pipe this destination options destination' options' w :
  resolved destination' options' (pipe this destination options w).2 =
  resolved destination' options' w.
Proof.
  unfold resolved. rewrite pipe_nodes_unlistened. cbv zeta.
  by rewrite isZStream_set_zDownstreamStreams.
Qed.

Lemma pipe_pipe_fanout this destination options destination' options' w :
  getDownstreamStreams this
    (pipe this destination' options' (pipe this destination options w).2).2
  = getDownstreamStreams this w
      ++ [resolved destination options w; resolved destination' options' w].
Proof.
  by rewrite !pipe_fanout, resolved_after_pipe, <- app_assoc.
Qed.

(** X4: consumers piped one after the other stand in the fanout in the
    order of the calls, each resolved as it would have been before the
    first call. *)
Theorem pipe_keeps_insertion_order this destination options destination' options' w :
  getDownstreamStreams this
    (pipe this destination' options' (pipe this destination options w).2).2
  = getDownstreamStreams this w
      ++ [resolved destination options w; resolved destination' options' w].
Proof. apply pipe_pipe_fanout. Qed.

(** X5: [tee] chains on the producer: [P.tee(A).tee(B)] returns [P], whose
    fanout has gained [A] then [B], and leaves the world that two calls of
    [pipe] on [P] leave. *)
Theorem tee_chain this destination options destination' options' w :
  let first := tee this destination options w in
  let second := tee first.1 destination' options' first.2 in
  second.1 = this
  ∧ second.2 = (pipe this destination' options' (pipe this destination options w).2).2
  ∧ getDownstreamStreams this second.2
    = getDownstreamStreams this w
        ++ [resolved destination options w; resolved destination' options' w].
Proof.
  intros first second.
  assert (H1 : first = (this, (pipe this destination options w).2)).
  { unfold first, tee. by destruct (pipe this destination options w). }
  assert (H2 : second
               = (this, (pipe this destination' options'
                           (pipe this destination options w).2).2)).
  { unfold second. rewrite H1. simpl. unfold tee.
    by destruct (pipe this destination' options' _). }
  rewrite H2. simpl. split; [done|]. split; [done|].
  apply pipe_pipe_fanout.
Qed.

(** X6: when the consumer has no ['error'] listener after the native
    [pipe], the mixin removes nothing: every emitter is as the native [pipe]
    left it. *)
Theorem pipe_without_listener_removes_nothing this destination options w :
  let C := resolved destination options w in
  default [] ((zSuperObj_pipe this C options w).2 !! C) = [] →
  emitters (pipe this destination options w).2 = (zSuperObj_pipe this C options w).2.
Proof.
  intros C Hnone. rewrite pipe_emitters. cbv zeta. fold C. by rewrite Hnone.
Qed.

(** X7: whatever order the native [pipe] registered in, the mixin removes
    one registration from the consumer, the latest one of the listener that
    heads its list; the other registrations stay, in their order. *)
Theorem pipe_removes_latest_registration_of_head this destination options w l0 rest :
  let C := resolved destination options w in
  (zSuperObj_pipe this C options w).2 !! C = Some (l0 :: rest) →
  ∃ pre post,
    l0 :: rest = pre ++ l0 :: post
    ∧ (l0 ∉ post)
    ∧ listeners C (pipe this destination options w).2 = pre ++ post.
Proof.
  intros C Hem. unfold listeners. rewrite pipe_emitters. cbv zeta. fold C.
  rewrite Hem. cbn -[reverse remove_first]. rewrite lookup_insert_eq.
  cbn -[reverse remove_first].
  destruct (remove_first_split l0 (reverse (l0 :: rest))) as (pre & post & Hsplit & Hpre & ->).
  { rewrite elem_of_reverse. apply elem_of_cons. by left. }
  exists (reverse post), (reverse pre). split; [|split].
  - rewrite <- (reverse_involutive (l0 :: rest)), Hsplit.
    by rewrite reverse_app, reverse_cons, <- app_assoc.
  - by rewrite elem_of_reverse.
  - apply reverse_app.
Qed.

(** X8: when the destination is a ZStream already, or conversion is
    switched off, so that the adapter is not called, [pipe] writes the
    fanout of the stream it is called on and nothing else of any stream
    object, and so does [unpipe] in every case: the ZStream marker, the
    chain pointer and the object mode of every stream stay, as does, for
    [unpipe], the fanout of every other stream. *)
Theorem connection_leaves_stream_fields this destination options (target : option Ref) w r :
  truthy (isZStream (nodes w !!! destination)) = true
  ∨ (∃ o, options = Some o ∧ truthy (noConvert o) = true) →
  let piped := (pipe this destination options w).2 in
  let unpiped := (unpipe this target w).2 in
  isZStream (nodes piped !!! r) = isZStream (nodes w !!! r)
  ∧ currentStreamChain (nodes piped !!! r) = currentStreamChain (nodes w !!! r)
  ∧ isReadableObjectMode r piped = isReadableObjectMode r w
  ∧ isZStream (nodes unpiped !!! r) = isZStream (nodes w !!! r)
  ∧ currentStreamChain (nodes unpiped !!! r) = currentStreamChain (nodes w !!! r)
  ∧ isReadableObjectMode r unpiped = isReadableObjectMode r w
  ∧ (r ≠ this → getDownstreamStreams r unpiped = getDownstreamStreams r w).
Proof.
  intros _ piped unpiped. unfold piped, unpiped, isReadableObjectMode.
  rewrite pipe_nodes_unlistened, unpipe_nodes. cbv zeta.
  rewrite !isZStream_set_zDownstreamStreams, !chain_set_zDownstreamStreams,
    !objectMode_set_zDownstreamStreams.
  repeat split.
  intros Hne. unfold getDownstreamStreams. rewrite unpipe_nodes.
  unfold set_zDownstreamStreams. simpl.
  by rewrite lookup_total_insert_ne.
Qed.

(** X9: when the native [pipe] returns its destination, [pipe] returns the
    consumer it worked on, the adapter's stream for a foreign object, and
    that is the last entry of the fanout. *)
Theorem pipe_returns_resolved_destination this destination options w :
  let C := resolved destination options w in
  (zSuperObj_pipe this C options w).1 = C →
  (pipe this destination options w).1 = C
  ∧ last (getDownstreamStreams this (pipe this destination options w).2)
    = Some (pipe this destination options w).1.
Proof.
  intros C Hnative.
  assert (Hret : (pipe this destination options w).1 = C).
  { rewrite pipe_steps. cbv zeta. simpl. exact Hnative. }
  split; [exact Hret|]. rewrite Hret, pipe_fanout. apply last_snoc.
Qed.

End ConnectionFurther.

(** Witness of X1, with the foreign object 5 and no adapter at work. *)
Lemma pipe_unpipe_restores_fanout_witness :
  (resolved (H := prepending_host) foreign (Some {| noConvert := VBool true; end_ := VUndefined |})
     example_world ∉ getDownstreamStreams producer example_world)
  ∧ getDownstreamStreams producer
      (unpipe (H := prepending_host) producer (Some foreign)
         (pipe (H := prepending_host) producer foreign
            (Some {| noConvert := VBool true; end_ := VUndefined |}) example_world).2).2
    = [consumer; consumer].
Proof.
  assert (Hnew :
    resolved (H := prepending_host) foreign
      (Some {| noConvert := VBool true; end_ := VUndefined |}) example_world
    ∉ getDownstreamStreams producer example_world)
    by (apply (bool_decide_unpack _); vm_compute; exact I).
  split; [exact Hnew|].
  exact (pipe_unpipe_restores_fanout (H := prepending_host) producer foreign
           (Some {| noConvert := VBool true; end_ := VUndefined |}) example_world Hnew).
Defined.

(** Witness of X3: the adapter wraps the foreign object 5 into stream 105,
    which stays in the fanout when 5 is un-piped. *)
Lemma unpipe_takes_no_adapter_witness :
  truthy (isZStream (nodes example_world !!! foreign)) = false
  ∧ convertToZStream (Host := wrapping_host) foreign ≠ foreign
  ∧ (foreign ∉ getDownstreamStreams producer example_world)
  ∧ getDownstreamStreams producer
      (unpipe (H := wrapping_host) producer (Some foreign)
         (pipe (H := wrapping_host) producer foreign None example_world).2).2
    = [consumer; consumer; 105%positive].
Proof.
  assert (Hforeign : truthy (isZStream (nodes example_world !!! foreign)) = false)
    by (vm_compute; reflexivity).
  assert (Hwrapped : convertToZStream (Host := wrapping_host) foreign ≠ foreign)
    by (vm_compute; discriminate).
  assert (Hnew : foreign ∉ getDownstreamStreams producer example_world)
    by (apply (bool_decide_unpack _); vm_compute; exact I).
  split; [exact Hforeign|]. split; [exact Hwrapped|]. split; [exact Hnew|].
  exact (unpipe_takes_no_adapter (H := wrapping_host) producer foreign example_world
           Hforeign Hwrapped Hnew).
Defined.

(** Witness of X6: the native [pipe] of [wrapping_host] registers nothing
    and stream 105 has no listener. *)
Lemma pipe_without_listener_removes_nothing_witness :
  default [] ((zSuperObj_pipe (Host := wrapping_host) producer
                 (resolved (H := wrapping_host) foreign None example_world) None
                 example_world).2
              !! resolved (H := wrapping_host) foreign None example_world) = []
  ∧ emitters (pipe (H := wrapping_host) producer foreign None example_world).2
    = emitters example_world.
Proof.
  assert (Hnone :
    default [] ((zSuperObj_pipe (Host := wrapping_host) producer
                   (resolved (H := wrapping_host) foreign None example_world) None
                   example_world).2
                !! resolved (H := wrapping_host) foreign None example_world) = [])
    by (vm_compute; reflexivity).
  split; [exact Hnone|].
  exact (pipe_without_listener_removes_nothing (H := wrapping_host) producer foreign None
           example_world Hnone).
Defined.

(** Witness of X7: the native [pipe] of [appending_host] leaves the
    listeners 7, 8 on stream 2; the mixin removes 7. *)
Lemma pipe_removes_latest_registration_of_head_witness :
  (zSuperObj_pipe (Host := appending_host) producer
     (resolved (H := appending_host) consumer None example_world) None example_world).2
    !! resolved (H := appending_host) consumer None example_world
  = Some [callers_listener; default_listener]
  ∧ ∃ pre post,
      [callers_listener; default_listener] = pre ++ callers_listener :: post
      ∧ (callers_listener ∉ post)
      ∧ listeners (resolved (H := appending_host) consumer None example_world)
          (pipe (H := appending_host) producer consumer None example_world).2
        = pre ++ post.
Proof.
  assert (Hem :
    (zSuperObj_pipe (Host := appending_host) producer
       (resolved (H := appending_host) consumer None example_world) None example_world).2
      !! resolved (H := appending_host) consumer None example_world
    = Some [callers_listener; default_listener])
    by (vm_compute; reflexivity).
  split; [exact Hem|].
  exact (pipe_removes_latest_registration_of_head (H := appending_host) producer consumer
           None example_world callers_listener [default_listener] Hem).
Defined.

(** Witness of X8: stream 2 is a ZStream. *)
Lemma connection_leaves_stream_fields_witness :
  (truthy (isZStream (nodes example_world !!! consumer)) = true
   ∨ (∃ o, None = Some o ∧ truthy (noConvert o) = true))
  ∧ isReadableObjectMode consumer
      (pipe (H := prepending_host) producer consumer None example_world).2
    = isReadableObjectMode consumer example_world.
Proof.
  assert (Hzstream :
    truthy (isZStream (nodes example_world !!! consumer)) = true
    ∨ (∃ o, None = Some o ∧ truthy (noConvert o) = true))
    by (left; vm_compute; reflexivity).
  split; [exact Hzstream|].
  destruct (connection_leaves_stream_fields (H := prepending_host) producer consumer None
              None example_world consumer Hzstream)
    as (_ & _ & Hmode & _).
  exact Hmode.
Defined.

(** Witness of X9: the native [pipe] of [prepending_host] returns its
    destination. *)
Lemma pipe_returns_resolved_destination_witness :
  (zSuperObj_pipe (Host := prepending_host) producer
     (resolved (H := prepending_host) consumer None example_world) None example_world).1
  = resolved (H := prepending_host) consumer None example_world
  ∧ (pipe (H := prepending_host) producer consumer None example_world).1 = consumer.
Proof.
  assert (Hnative :
    (zSuperObj_pipe (Host := prepending_host) producer
       (resolved (H := prepending_host) consumer None example_world) None example_world).1
    = resolved (H := prepending_host) consumer None example_world)
    by reflexivity.
  split; [exact Hnative|].
  exact (proj1 (pipe_returns_resolved_destination (H := prepending_host) producer consumer
                  None example_world Hnative)).
Defined.

(** ** Further properties of the convenience constructors *)

Section ConstructorsFurther.

Context {UserState : Type} `{!@Host UserState}.
Implicit Types (w : @World UserState) (this : Ref) (s : @Stage UserState).
Implicit Types (f g : @JSFunction UserState) (cb : @Callback UserState).





(** X12: [intoFile(path, cb)], with a function in second place, is
    [intoFile(path, null, cb)], whatever stands in third place. *)
Theorem intoFile_callback_in_second_place this (path : JSValue) (k : @Callback UserState)
    (third : Arg) w :
  intoFile this path (ArgFunction k) third w
  = intoFile this path (ArgValue VNull) (ArgFunction k) w.
Proof. reflexivity. Qed.

(** X13: [intoArray] and [intoString] register one completion function
    with the sink; called with an error that counts as true it calls
    [cb(error)] and does not read the sink; called with any other first
    argument (or none) it reads the sink and calls [cb(null, result)], or
    raises what the reading raised without calling [cb]. *)
Theorem sinks_complete_once this cb w :
  intoArray this cb w =
    (let '(sink, w1) := new_ (ArrayWritableStream (VBool (isReadableObjectMode this w))) w in
     let '(piped, w2) := pipe this sink None w1 in
     let '(_, em) :=
       intoCallback piped (ArgFunction (sink_completion cb (getArray (next_ref w)))) w2 in
     set_emitters (fun _ => em) w2)
  ∧ intoString this cb w =
    (let '(sink, w1) := new_ (StringWritableStream (VBool (isReadableObjectMode this w))) w in
     let '(piped, w2) := pipe this sink None w1 in
     let '(_, em) :=
       intoCallback piped (ArgFunction (sink_completion cb (getString (next_ref w)))) w2 in
     set_emitters (fun _ => em) w2)
  ∧ ∀ (result : M JSValue) (args : list JSValue) st,
      sink_completion cb result args st =
        if truthy (nth 0 args VUndefined)
        then discarding (cb [nth 0 args VUndefined]) st
        else match result st with
             | (Returned a, st1) => discarding (cb [VNull; a]) st1
             | (Thrown ex, st1) => (Thrown ex, st1)
             end.
Proof.
  split; [|split].
  - unfold intoArray, new_. by destruct (construct _).
  - unfold intoString, new_. by destruct (construct _).
  - intros result args st. unfold sink_completion, discarding, bind, ret.
    destruct (truthy _); [done|]. by destruct (result st) as [[a|ex] st1].
Qed.

(** X14: [split(d)] builds its stage with [d] when [d] counts as true, a
    string or a regular expression say, and with the pattern [\r?\n] when
    [d] is missing or counts as false: the empty string cannot be used as
    delimiter. *)
Theorem split_delimiter this (d : JSValue) w :
  let built := created w (split this d w).2 in
  (truthy d = true → built = Some (SplitStream d))
  ∧ (truthy d = false → built = Some (SplitStream (VRegExp "\r?\n")))
  ∧ (d ∈ [VUndefined; VNull; VStr ""] → built = Some (SplitStream (VRegExp "\r?\n")))
  ∧ (∀ c rest, d = VStr (String c rest) → built = Some (SplitStream d))
  ∧ (∀ source, d = VRegExp source → built = Some (SplitStream d)).
Proof.
  intros built. unfold built. rewrite created_split.
  repeat split.
  - by intros ->.
  - by intros ->.
  - intros Hd. repeat (apply elem_of_cons in Hd as [->|Hd]); try done.
    by apply elem_of_nil in Hd.
  - by intros c rest ->.
  - by intros source ->.
Qed.

(** X15: the function [through] gives its stage calls the caller's
    transform with the chunk and the callback, never the encoding, and
    catches nothing: what the transform raises, the stage function raises;
    what it returns is dropped. *)
Theorem through_stage_function this f (objectMode : JSValue) w :
  ∃ T wm rm,
    created w (through this f objectMode w).2 = Some (ThroughStream T wm rm)
    ∧ ∀ stage (chunk enc k : Arg) st,
        T stage [chunk; enc; k] st = discarding (f stage [chunk; k]) st
        ∧ (∀ ex st', f stage [chunk; k] st = (Thrown ex, st') →
             T stage [chunk; enc; k] st = (Thrown ex, st'))
        ∧ (∀ v st', f stage [chunk; k] st = (Returned v, st') →
             T stage [chunk; enc; k] st = (Returned VUndefined, st')).
Proof.
  do 3 eexists. split; [apply created_through|].
  intros stage chunk enc k st. cbn [arg nth]. split; [done|].
  unfold discarding, bind, ret.
  split; intros ? st' ->; done.
Qed.

(** X16: the function of [throughSync], called in the data-mode form
    [(chunk, encoding, cb)], hands chunk and encoding to the transform and
    reports to [cb], the third argument. *)
Theorem throughSync_wrapper_with_encoding f (receiver : option Ref) (chunk : Arg)
    (enc : JSValue) cb st :
  throughSync_wrapper f receiver [chunk; ArgValue enc; ArgFunction cb] st =
    match f receiver [chunk; ArgValue enc] st with
    | (Thrown ex, st1) => cb [ex] st1
    | (Returned v, st1) =>
        match cb [VNull; v] st1 with
        | (Returned _, st2) => (Returned VUndefined, st2)
        | (Thrown ex, st2) => cb [ex] st2
        end
    end.
Proof.
  unfold throughSync_wrapper, try_catch, bind, ret, call, arg. simpl.
  destruct (f receiver [chunk; ArgValue enc] st) as [[v|ex] st1]; [|done].
  by destruct (cb [VNull; v] st1) as [[v'|ex] st2].
Qed.

(** X17: when neither the second nor the third argument is a function, the
    function of [throughSync] still runs the transform, on all arguments
    but the last, and then raises a TypeError, whether the transform
    returned or raised. *)
Theorem throughSync_wrapper_without_callback f (receiver : option Ref) (args : list Arg) st :
  is_function (arg 1 args) = false →
  is_function (arg 2 args) = false →
  throughSync_wrapper f receiver args st
  = (Thrown (VError "TypeError" "not a function"), (f receiver (removelast args) st).2).
Proof.
  intros H1 H2. unfold throughSync_wrapper. rewrite H1.
  unfold try_catch, bind, ret, call, throw.
  destruct (arg 2 args) as [v|k]; [|discriminate].
  by destruct (f receiver (removelast args) st) as [[v'|ex] st1].
Qed.

(** X18: a stream that has just been constructed and is then piped into
    two consumers has exactly these two as its fanout, in that order,
    whatever the object held before. *)
Theorem constructed_then_piped this destination options destination' options' w :
  let w0 := _Readable this w in
  getDownstreamStreams this w0 = []
  ∧ getDownstreamStreams this
      (pipe this destination' options' (pipe this destination options w0).2).2
    = [resolved destination options w; resolved destination' options' w]
  ∧ getDownstreamStreams this (unpipe this None w).2 = getDownstreamStreams this w0.
Proof.
  intros w0.
  assert (Hempty : getDownstreamStreams this w0 = [])
    by apply fanout_set_zDownstreamStreams.
  split; [exact Hempty|]. split.
  - rewrite pipe_pipe_fanout, Hempty. simpl.
    unfold resolved, w0, _Readable. by rewrite !isZStream_set_zDownstreamStreams.
  - by rewrite unpipe_fanout_eq, Hempty.
Qed.

(** X21: when the file stream the platform hands out is not a ZStream,
    [intoFile] runs the adapter on it and pipes into what the adapter
    returns: the fanout gains the adapter's result for the new file stream,
    which is the file stream itself when the adapter converts in place. *)
Theorem intoFile_pipes_into_adapter this (path : JSValue) (options k : Arg) w :
  (∀ p o, truthy (isZStream (construct (FileWriteStream p o)).1) = false) →
  this ≠ next_ref w →
  getDownstreamStreams this (intoFile this path options k w).2
  = getDownstreamStreams this w ++ [convertToZStream (next_ref w)].
Proof.
  intros Hforeign Halloc. unfold intoFile.
  set (opts := if is_function options then _ else _).
  destruct opts as [options' cb'].
  pose proof (Hforeign path options') as Hfile.
  unfold new_. destruct (construct (FileWriteStream path options')) as [n ls].
  simpl in Hfile.
  set (w1 := {| nodes := <[next_ref w := n]> (nodes w); chains := chains w;
                emitters := <[next_ref w := ls]> (emitters w);
                stages := <[next_ref w := FileWriteStream path options']> (stages w);
                next_ref := Pos.succ (next_ref w) |}).
  pose proof (pipe_fanout this (next_ref w) None w1) as Hfan.
  destruct (pipe this (next_ref w) None w1) as [sink w2].
  destruct (intoCallback sink cb' w2) as [r em]. simpl in *.
  unfold getDownstreamStreams in *. simpl. rewrite Hfan. f_equal.
  - unfold w1. simpl. by rewrite lookup_total_insert_ne.
  - unfold resolved, w1. simpl. by rewrite lookup_total_insert_eq, Hfile.
Qed.

End ConstructorsFurther.

(** ** [batch] on numbers and on numeric text *)

(** The digits of a decimal numeral, first digit first. *)
Fixpoint uint_digits (d : Decimal.uint) : list N :=
  match d with
  | Nil => []
  | D0 d => 0%N :: uint_digits d
  | D1 d => 1%N :: uint_digits d
  | D2 d => 2%N :: uint_digits d
  | D3 d => 3%N :: uint_digits d
  | D4 d => 4%N :: uint_digits d
  | D5 d => 5%N :: uint_digits d
  | D6 d => 6%N :: uint_digits d
  | D7 d => 7%N :: uint_digits d
  | D8 d => 8%N :: uint_digits d
  | D9 d => 9%N :: uint_digits d
  end.

(** The decimal text of a natural number. *)
Definition decimal (m : N) : string := NilZero.string_of_uint (N.to_uint m).

(** Text that ends an integer written before it: it is empty or starts with
    a code unit that is neither a decimal digit nor an x. *)
Definition ends_integer (tail : string) : Prop :=
  match tail with
  | EmptyString => True
  | String c _ =>
      digit_value 10 c = None ∧ (Ascii.eqb c "x" || Ascii.eqb c "X")%bool = false
  end.

(** A text does not start with [0x] or [0X]. *)
Definition no_hex_prefix (s : string) : Prop :=
  match s with
  | String c0 (String c1 _) =>
      c0 = "0"%char → (Ascii.eqb c1 "x" || Ascii.eqb c1 "X")%bool = false
  | _ => True
  end.

Section BatchNumbers.

Context {UserState : Type} `{!@Host UserState}.
Implicit Types (w : @World UserState) (this : Ref).

Lemma append_empty_r (s : string) : s +:+ "" = s.
Proof.
  induction s as [|c s IH]; [reflexivity|].
  change (String c (s +:+ "") = String c s). by rewrite IH.
Qed.

Lemma digits_prefix_decimal (d : Decimal.uint) (tail : string) :
  ends_integer tail →
  digits_prefix 10 (NilEmpty.string_of_uint d +:+ tail) = uint_digits d.
Proof.
  intros Htail. induction d as [|d IH|d IH|d IH|d IH|d IH|d IH|d IH|d IH|d IH|d IH];
    cbn [NilEmpty.string_of_uint uint_digits].
  1: { change ("" +:+ tail) with tail.
       destruct tail as [|c rest]; [done|]. destruct Htail as [Htail _].
       cbn [digits_prefix]. by rewrite Htail. }
  all: change (String ?c ?s +:+ ?t) with (String c (s +:+ t)).
  all: cbn [digits_prefix]; rewrite IH; reflexivity.
Qed.

Lemma math_int_decimal_acc (d : Decimal.uint) (p : positive) :
  fold_left (fun acc k => acc * 10 + k)%N (uint_digits d) (N.pos p)
  = N.pos (Pos.of_uint_acc d p).
Proof.
  revert p. induction d as [|d IH|d IH|d IH|d IH|d IH|d IH|d IH|d IH|d IH|d IH];
    intros p; simpl; [done|..];
    rewrite <- IH; f_equal; lia.
Qed.

Lemma math_int_decimal (d : Decimal.uint) :
  math_int 10 (uint_digits d) = N.of_uint d.
Proof.
  unfold math_int, N.of_uint.
  induction d as [|d IH|d IH|d IH|d IH|d IH|d IH|d IH|d IH|d IH|d IH];
    simpl; [done|exact IH|..]; apply math_int_decimal_acc.
Qed.

(** A text that starts with a decimal digit, and not with [0x], is read in
    radix 10 up to its first non-digit, with or without a minus sign in
    front. *)
Lemma parseInt_string_digits (c0 : ascii) (k : N) (s : string) :
  digit_value 10 c0 = Some k →
  no_hex_prefix (String c0 s) →
  parseInt_string (String c0 s) = Finite false (math_int 10 (digits_prefix 10 (String c0 s))) 0
  ∧ parseInt_string (String "-" (String c0 s))
    = Finite true (math_int 10 (digits_prefix 10 (String c0 s))) 0.
Proof.
  intros Hdigit Hhex.
  destruct c0 as [[] [] [] [] [] [] [] []]; try discriminate Hdigit.
  all: unfold parseInt_string; cbn [skip_whitespace].
  all: repeat match goal with
         | |- context [is_StrWhiteSpaceChar ?c] =>
             change (is_StrWhiteSpaceChar c) with false
         end; cbv iota.
  all: destruct s as [|c1 s]; [split; reflexivity|].
  all: simpl in Hhex; try rewrite (Hhex eq_refl).
  all: cbn [digits_prefix]; rewrite Hdigit; split; reflexivity.
Qed.

Lemma parseInt_string_decimal (d : Decimal.uint) (tail : string) :
  d ≠ Nil → ends_integer tail →
  parseInt_string (NilEmpty.string_of_uint d +:+ tail) = Finite false (N.of_uint d) 0
  ∧ parseInt_string ("-" +:+ NilEmpty.string_of_uint d +:+ tail)
    = Finite true (N.of_uint d) 0.
Proof.
  intros Hd Htail.
  assert (Hshape : ∃ c0 k s,
            NilEmpty.string_of_uint d +:+ tail = String c0 s
            ∧ digit_value 10 c0 = Some k ∧ no_hex_prefix (String c0 s)).
  { destruct d as [|d|d|d|d|d|d|d|d|d|d]; [done|..]; cbn [NilEmpty.string_of_uint].
    all: change (String ?c ?s +:+ ?t) with (String c (s +:+ t)).
    all: do 3 eexists; split; [reflexivity|]; split; [reflexivity|].
    all: unfold no_hex_prefix.
    all: destruct (NilEmpty.string_of_uint d +:+ tail) as [|c1 s1] eqn:Hrest; [done|].
    all: intros Hzero; try discriminate Hzero.
    destruct d as [|d|d|d|d|d|d|d|d|d|d]; cbn [NilEmpty.string_of_uint] in Hrest.
    1: { change ("" +:+ tail) with tail in Hrest. subst tail.
         by destruct Htail as [_ Hx]. }
    all: change (String ?c ?s +:+ ?t) with (String c (s +:+ t)) in Hrest.
    all: injection Hrest as <- _; reflexivity. }
  destruct Hshape as (c0 & k & s & Hs & Hdigit & Hhex).
  change ("-" +:+ NilEmpty.string_of_uint d +:+ tail)
    with (String "-" (NilEmpty.string_of_uint d +:+ tail)).
  rewrite Hs.
  destruct (parseInt_string_digits c0 k s Hdigit Hhex) as [-> ->].
  by rewrite <- Hs, digits_prefix_decimal, math_int_decimal.
Qed.

Lemma decimal_not_Nil (m : N) : N.to_uint m ≠ Nil.
Proof.
  destruct m as [|p]; [discriminate|]. apply DecimalPos.Unsigned.to_uint_nonnil.
Qed.

Lemma decimal_eq (m : N) : decimal m = NilEmpty.string_of_uint (N.to_uint m).
Proof.
  unfold decimal, NilZero.string_of_uint.
  pose proof (decimal_not_Nil m) as Hnil. by destruct (N.to_uint m).
Qed.

(** X19: [batch] called with an integer number below 10^21 builds its
    stage with that very number, positive or negative: printing the number
    and reading it back with [parseInt] loses nothing, and there is no test
    that the size is positive; both zeros give size 0. *)
Theorem batch_keeps_integer_numbers this (neg : bool) (m : N) (e : Z) w :
  (0 < m < 10 ^ 21)%N →
  created w (batch this (VNum (Finite neg m 0)) w).2 = Some (BatchStream (Finite neg m 0))
  ∧ created w (batch this (VNum (Finite neg 0 e)) w).2 = Some (BatchStream (Integer 0)).
Proof.
  intros [Hpos Hsmall]. rewrite !created_batch. split; [|reflexivity].
  unfold parseInt, ToString, NumberToString.
  destruct (N.eqb_spec m 0) as [->|_]; [lia|].
  destruct (N.ltb_spec m (10 ^ 21)) as [_|Hge]; [|lia].
  change (0 =? 0)%Z with true. cbn [andb].
  fold (decimal m). rewrite decimal_eq.
  destruct (parseInt_string_decimal (N.to_uint m) "" (decimal_not_Nil m) I) as [Hplus Hminus].
  rewrite !append_empty_r in *.
  destruct neg.
  - rewrite Hminus. simpl. by rewrite DecimalN.Unsigned.of_to.
  - change ("" +:+ ?s) with s.
    rewrite Hplus. simpl. by rewrite DecimalN.Unsigned.of_to.
Qed.

(** X20: [batch] called with a text that is a natural number up to 2^53
    in decimal, followed by anything that starts with neither a digit nor an
    x, builds its stage with that number (its negative after a minus sign):
    what follows the digits is ignored.  Up to 2^53 every integer is a
    number of the platform, so that the value read is the exact one. *)
Theorem batch_reads_leading_integer this (m : N) (tail : string) w :
  ends_integer tail →
  (m ≤ 2 ^ 53)%N →
  created w (batch this (VStr (decimal m +:+ tail)) w).2 = Some (BatchStream (Integer m))
  ∧ created w (batch this (VStr ("-" +:+ decimal m +:+ tail)) w).2
    = Some (BatchStream (Finite true m 0)).
Proof.
  intros Htail _. rewrite !created_batch. unfold parseInt, ToString.
  rewrite decimal_eq.
  destruct (parseInt_string_decimal (N.to_uint m) tail (decimal_not_Nil m) Htail)
    as [-> ->].
  simpl. by rewrite DecimalN.Unsigned.of_to.
Qed.

End BatchNumbers.

Section BatchClaim.

Context {UserState : Type} `{!@Host UserState}.
Implicit Types (w : @World UserState) (this : Ref).



End BatchClaim.

(** ** The further properties at work *)



(** Witness of X17: the function of [throughSync] called with a chunk and
    nothing else. *)
Lemma throughSync_wrapper_without_callback_witness :
  is_function (arg 1 [@ArgValue CallLog (VNum (Integer 3))]) = false
  ∧ is_function (arg 2 [@ArgValue CallLog (VNum (Integer 3))]) = false
  ∧ throughSync_wrapper raises_on_two None [ArgValue (VNum (Integer 3))] []
    = (Thrown (VError "TypeError" "not a function"), []).
Proof.
  split; [reflexivity|]. split; [reflexivity|].
  exact (throughSync_wrapper_without_callback raises_on_two None
           [ArgValue (VNum (Integer 3))] [] eq_refl eq_refl).
Defined.

(** Witness of X19: [batch(25)] and [batch(-25)]. *)
Lemma batch_keeps_integer_numbers_witness :
  (0 < 25 < 10 ^ 21)%N
  ∧ created example_world
      (batch (H := prepending_host) producer (VNum (Finite true 25 0)) example_world).2
    = Some (BatchStream (Finite true 25 0)).
Proof.
  assert (Hrange : (0 < 25 < 10 ^ 21)%N) by (split; reflexivity).
  split; [exact Hrange|].
  exact (proj1 (batch_keeps_integer_numbers (H := prepending_host) producer true 25 0
                  example_world Hrange)).
Defined.

(** Witness of X20: [batch("12px")]. *)
Lemma batch_reads_leading_integer_witness :
  ends_integer "px"
  ∧ (12 ≤ 2 ^ 53)%N
  ∧ created example_world
      (batch (H := prepending_host) producer (VStr "12px") example_world).2
    = Some (BatchStream (Integer 12)).
Proof.
  assert (Htail : ends_integer "px") by (split; reflexivity).
  assert (Hsmall : (12 ≤ 2 ^ 53)%N) by (vm_compute; discriminate).
  split; [exact Htail|]. split; [exact Hsmall|].
  exact (proj1 (batch_reads_leading_integer (H := prepending_host) producer 12 "px"
                  example_world Htail Hsmall)).
Defined.

(** Witness of X21: on [file_host] the file stream is object 3, which the
    adapter converts in place. *)
Lemma intoFile_pipes_into_adapter_witness :
  (∀ p o, truthy (isZStream (construct (Host := file_host) (FileWriteStream p o)).1) = false)
  ∧ producer ≠ next_ref example_world
  ∧ getDownstreamStreams producer
      (intoFile (H := file_host) producer (VStr "out.txt") (ArgFunction recording_callback)
         (ArgValue VUndefined) example_world).2
    = [consumer; consumer; 3%positive].
Proof.
  assert (Hforeign :
    ∀ p o, truthy (isZStream (construct (Host := file_host) (FileWriteStream p o)).1) = false)
    by reflexivity.
  assert (Halloc : producer ≠ next_ref example_world) by (vm_compute; discriminate).
  split; [exact Hforeign|]. split; [exact Halloc|].
  exact (intoFile_pipes_into_adapter (H := file_host) producer (VStr "out.txt")
           (ArgFunction recording_callback) (ArgValue VUndefined) example_world
           Hforeign Halloc).
Defined.

